(** * scripts/diff_l10n_branches.py: outdated-localization report

    A shallow embedding of the script that compares two l10n milestone
    branches and prints a markdown issue body, together with the
    properties stated about it.

    Layout of the development:
    - [Py]: the Python text primitives the script calls
      ([bytes.strip], [bytes.decode], [str.strip], [str.split],
      [str.splitlines], [str.replace], [str.startswith], [str(int)]);
    - [Jinja]: the fragment of the jinja2 template language used by
      [ISSUE_TEMPLATE], as an interpreter over template nodes;
    - the script itself, in a state-and-exception monad over the three
      module-level lists, with [subprocess] as the interface to git;
    - the vocabulary of the statements and a few sample repositories;
    - the theorems: one line at a time, the whole pass, the report;
    - further properties of the text primitives, of the pass, of a whole
      run and of the report. *)

From Stdlib Require Import List String Ascii Bool Arith NArith ZArith Lia.
From Stdlib.Strings Require Import Byte.
From Stdlib Require Import DecimalString.
Import ListNotations.

Set Implicit Arguments.
Set Warnings "-register-all,-abstract-large-number".

(* ================================================================== *)
(** * Python text primitives *)

Module Py.

Local Open Scope N_scope.

(** A Python [str] is a sequence of Unicode code points, a Python [bytes]
    a sequence of octets. *)
Definition str := list N.
Definition bytes := list byte.

(** Source literals are ASCII; [u] reads one as a [str], [b] as [bytes]. *)
Definition u (s : string) : str := map N_of_ascii (list_ascii_of_string s).
Definition b (s : string) : bytes := list_byte_of_string s.

Definition str_eqb (s t : str) : bool :=
  if list_eq_dec N.eq_dec s t then true else false.

(** [Py_UNICODE_ISSPACE]: the characters [str.strip] and [str.split]
    treat as whitespace. *)
Definition isspace (c : N) : bool :=
  ((9 <=? c) && (c <=? 13)) || ((28 <=? c) && (c <=? 32))
  || (c =? 133) || (c =? 160) || (c =? 5760)
  || ((8192 <=? c) && (c <=? 8202))
  || (c =? 8232) || (c =? 8233) || (c =? 8239) || (c =? 8287)
  || (c =? 12288).

(** The characters [str.splitlines] treats as line boundaries. *)
Definition islinebreak (c : N) : bool :=
  ((10 <=? c) && (c <=? 13)) || ((28 <=? c) && (c <=? 30))
  || (c =? 133) || (c =? 8232) || (c =? 8233).

(** The octets [bytes.strip] removes: space, \t, \n, \v, \f, \r. *)
Definition isspace_byte (x : byte) : bool :=
  let c := Byte.to_N x in ((9 <=? c) && (c <=? 13)) || (c =? 32).

Fixpoint lstrip_with {A} (sp : A -> bool) (s : list A) : list A :=
  match s with
  | [] => []
  | c :: t => if sp c then lstrip_with sp t else s
  end.

Definition rstrip_with {A} (sp : A -> bool) (s : list A) : list A :=
  rev (lstrip_with sp (rev s)).

Definition strip_with {A} (sp : A -> bool) (s : list A) : list A :=
  rstrip_with sp (lstrip_with sp s).

(** [s.lstrip()], [s.strip()] on [str]; [s.strip()] on [bytes]. *)
Definition lstrip (s : str) : str := lstrip_with isspace s.
Definition strip (s : str) : str := strip_with isspace s.
Definition bytes_strip (s : bytes) : bytes := strip_with isspace_byte s.

(** [s.split()]: maximal runs of non-whitespace characters. [cur] is the
    run being read. *)
Fixpoint split_from (cur : str) (s : str) : list str :=
  match s with
  | [] => match cur with [] => [] | _ => [cur] end
  | c :: t =>
      if isspace c
      then match cur with
           | [] => split_from [] t
           | _ => cur :: split_from [] t
           end
      else split_from (cur ++ [c]) t
  end.

Definition split (s : str) : list str := split_from [] s.

(** [s.splitlines()]: lines without their terminators; "\r\n" is one
    terminator; a terminator at the very end opens no further line. *)
Fixpoint splitlines_from (cur : str) (s : str) : list str :=
  match s with
  | [] => match cur with [] => [] | _ => [cur] end
  | c :: t =>
      if islinebreak c
      then cur :: match t with
                  | c' :: t' =>
                      if (c =? 13) && (c' =? 10)
                      then splitlines_from [] t'
                      else splitlines_from [] t
                  | [] => splitlines_from [] t
                  end
      else splitlines_from (cur ++ [c]) t
  end.

Definition splitlines (s : str) : list str := splitlines_from [] s.

(** [s.startswith(p)]. *)
Fixpoint startswith (s p : str) : bool :=
  match p, s with
  | [], _ => true
  | _ :: _, [] => false
  | x :: p', c :: s' => (c =? x) && startswith s' p'
  end.

(** [s.replace(old, new)]: every non-overlapping occurrence of [old],
    scanning from the left. [skip] counts the characters of a matched
    occurrence still to be passed over. An empty [old] matches before
    every character and at the end. *)
Fixpoint replace_from (old new : str) (skip : nat) (s : str) : str :=
  match s with
  | [] => []
  | c :: t =>
      match skip with
      | S k => replace_from old new k t
      | O =>
          if startswith s old
          then new ++ replace_from old new (pred (List.length old)) t
          else c :: replace_from old new 0%nat t
      end
  end.

Fixpoint replace_empty (new : str) (s : str) : str :=
  match s with
  | [] => new
  | c :: t => new ++ c :: replace_empty new t
  end.

Definition replace (s old new : str) : str :=
  match old with
  | [] => replace_empty new s
  | _ :: _ => replace_from old new 0%nat s
  end.

(** [str(n)] for a non-negative [int]. *)
Definition str_of_nat (n : nat) : str :=
  u (NilZero.string_of_uint (Nat.to_uint n)).

(** [bytes.decode("utf-8")] with the default strict error handler:
    [None] stands for [UnicodeDecodeError]. Overlong forms, surrogates and
    values above U+10FFFF are rejected. *)
Definition is_cont (n : N) : bool := (128 <=? n) && (n <=? 191).
Definition within (lo hi n : N) : bool := (lo <=? n) && (n <=? hi).

Fixpoint decode (bs : bytes) : option str :=
  match bs with
  | [] => Some []
  | b0 :: t0 =>
      let n0 := Byte.to_N b0 in
      if n0 <? 128 then option_map (cons n0) (decode t0)
      else if within 194 223 n0 then
        match t0 with
        | b1 :: t1 =>
            let n1 := Byte.to_N b1 in
            if is_cont n1
            then option_map (cons ((n0 - 192) * 64 + (n1 - 128))) (decode t1)
            else None
        | _ => None
        end
      else if within 224 239 n0 then
        match t0 with
        | b1 :: b2 :: t2 =>
            let n1 := Byte.to_N b1 in
            let n2 := Byte.to_N b2 in
            if within (if n0 =? 224 then 160 else 128)
                      (if n0 =? 237 then 159 else 191) n1
               && is_cont n2
            then option_map
                   (cons ((n0 - 224) * 4096 + (n1 - 128) * 64 + (n2 - 128)))
                   (decode t2)
            else None
        | _ => None
        end
      else if within 240 244 n0 then
        match t0 with
        | b1 :: b2 :: b3 :: t3 =>
            let n1 := Byte.to_N b1 in
            let n2 := Byte.to_N b2 in
            let n3 := Byte.to_N b3 in
            if within (if n0 =? 240 then 144 else 128)
                      (if n0 =? 244 then 143 else 191) n1
               && is_cont n2 && is_cont n3
            then option_map
                   (cons ((n0 - 240) * 262144 + (n1 - 128) * 4096
                          + (n2 - 128) * 64 + (n3 - 128)))
                   (decode t3)
            else None
        | _ => None
        end
      else None
  end.

End Py.

(* ================================================================== *)
(** * Results of fallible computations *)

Inductive result (E A : Type) : Type :=
| Ok (a : A)
| Err (e : E).

Arguments Ok {E A} a.
Arguments Err {E A} e.

Definition rbind {E A B} (r : result E A) (k : A -> result E B) : result E B :=
  match r with
  | Ok a => k a
  | Err e => Err e
  end.

Declare Scope result_scope.
Delimit Scope result_scope with result.
Notation "x <- r ;; k" := (rbind r (fun x => k))
  (at level 61, r at next level, right associativity) : result_scope.

(* ================================================================== *)
(** * The jinja2 fragment used by the report template

    The environment is the one [jinja2.Template(source)] builds: no
    autoescaping, [trim_blocks] and [lstrip_blocks] off,
    [keep_trailing_newline] off, the default [Undefined]. *)

Module Jinja.

Import Py.
Local Open Scope string_scope.
Local Open Scope list_scope.
Local Open Scope result_scope.

(** Values a template expression can denote. [VOpaque] is an object the
    model does not look into (the [loop] variable, the default globals). *)
Inductive value : Type :=
| VStr (s : str)
| VInt (n : nat)
| VList (xs : list value)
| VDict (kvs : list (string * value))
| VUndefined
| VOpaque.

Inductive error : Type :=
| UndefinedError
| TypeError
| Unmodelled.

(** Expressions: a name, [e.attr], [e.0], [e | count],
    [e | replace(old, new)]. *)
Inductive expr : Type :=
| Name (x : string)
| Getattr (e : expr) (attr : string)
| Getitem (e : expr) (i : nat)
| Count (e : expr)
| Replace (e old new : expr).

(** Template nodes: literal data, [{{ e }}], [{% for x in e %}] with its
    body (the flag records a closing [-%}]) and [{% if e %}] with its
    body. *)
Inductive node : Type :=
| Data (s : str)
| Output (e : expr)
| For (target : string) (iter : expr) (minus : bool) (body : list node)
| If (test : expr) (body : list node).

Definition text (s : string) : node := Data (u s).

Definition context := list (string * value).

Fixpoint lookup (x : string) (env : context) : option value :=
  match env with
  | [] => None
  | (y, v) :: env' => if String.eqb x y then Some v else lookup x env'
  end.

(** Attribute names a Python [dict] answers itself, before any key. *)
Definition dict_attributes : list string :=
  ["clear"; "copy"; "fromkeys"; "get"; "items"; "keys"; "pop"; "popitem";
   "setdefault"; "update"; "values"].

Definition is_dict_attribute (a : string) : bool :=
  existsb (String.eqb a) dict_attributes || String.prefix "__" a.

(** [str(v)], as used to print a value and by the [replace] filter. *)
Definition to_str (v : value) : result error str :=
  match v with
  | VStr s => Ok s
  | VInt n => Ok (str_of_nat n)
  | VUndefined => Ok []
  | VList _ | VDict _ | VOpaque => Err Unmodelled
  end.

(** Truth of a value in [{% if %}]. *)
Definition truthy (v : value) : result error bool :=
  match v with
  | VStr s => Ok (negb (Nat.eqb (List.length s) 0))
  | VInt n => Ok (negb (Nat.eqb n 0))
  | VList xs => Ok (negb (Nat.eqb (List.length xs) 0))
  | VDict kvs => Ok (negb (Nat.eqb (List.length kvs) 0))
  | VUndefined => Ok false
  | VOpaque => Err Unmodelled
  end.

(** The items [{% for %}] iterates over. *)
Definition items (v : value) : result error (list value) :=
  match v with
  | VList xs => Ok xs
  | VStr s => Ok (map (fun c => VStr [c]) s)
  | VDict kvs => Ok (map (fun kv => VStr (u (fst kv))) kvs)
  | VUndefined => Ok []
  | VInt _ => Err TypeError
  | VOpaque => Err Unmodelled
  end.

Fixpoint eval (env : context) (e : expr) : result error value :=
  match e with
  | Name x =>
      Ok (match lookup x env with Some v => v | None => VUndefined end)
  | Getattr e' a =>
      v <- eval env e' ;;
      match v with
      | VDict kvs =>
          if is_dict_attribute a then Err Unmodelled
          else Ok (match lookup a kvs with Some w => w | None => VUndefined end)
      | VUndefined => Err UndefinedError
      | _ => Err Unmodelled
      end
  | Getitem e' i =>
      v <- eval env e' ;;
      match v with
      | VList xs => Ok (nth i xs VUndefined)
      | VUndefined => Err UndefinedError
      | _ => Err Unmodelled
      end
  | Count e' =>
      v <- eval env e' ;;
      match v with
      | VList xs => Ok (VInt (List.length xs))
      | VStr s => Ok (VInt (List.length s))
      | VUndefined => Ok (VInt 0)
      | VInt _ => Err TypeError
      | VDict _ | VOpaque => Err Unmodelled
      end
  | Replace e' old new =>
      v <- eval env e' ;;
      vo <- eval env old ;;
      vn <- eval env new ;;
      s <- to_str v ;;
      so <- to_str vo ;;
      sn <- to_str vn ;;
      Ok (VStr (replace s so sn))
  end.

(** Whitespace control: a block tag closed by [-%}] removes the
    whitespace that opens the data following it. *)
Definition lstrip_head (ns : list node) : list node :=
  match ns with
  | Data s :: rest => Data (lstrip s) :: rest
  | _ => ns
  end.

Fixpoint whitespace_control (n : node) : node :=
  match n with
  | For x it minus body =>
      let body' := map whitespace_control body in
      For x it false (if minus then lstrip_head body' else body')
  | If c body => If c (map whitespace_control body)
  | Data _ | Output _ => n
  end.

(** Without [keep_trailing_newline] a single newline ending the source is
    removed. *)
Definition chomp (s : str) : str :=
  match rev s with
  | 10%N :: r => rev r
  | _ => s
  end.

Definition drop_trailing_newline (ns : list node) : list node :=
  match rev ns with
  | Data s :: r => rev (Data (chomp s) :: r)
  | _ => ns
  end.

Definition compile (source : list node) : list node :=
  map whitespace_control (drop_trailing_newline source).

(** [mapM_concat f xs]: the concatenation of the texts [f] gives for the
    elements of [xs], in order, stopping at the first error. *)
Fixpoint mapM_concat {A} (f : A -> result error str) (xs : list A)
  : result error str :=
  match xs with
  | [] => Ok []
  | x :: xs' =>
      s <- f x ;;
      t <- mapM_concat f xs' ;;
      Ok (s ++ t)
  end.

Fixpoint render_node (env : context) (n : node) {struct n}
  : result error str :=
  match n with
  | Data s => Ok s
  | Output e => v <- eval env e ;; to_str v
  | For x it _ body =>
      v <- eval env it ;;
      xs <- items v ;;
      mapM_concat
        (fun item =>
           let env' := (x, item) :: ("loop", VOpaque) :: env in
           (fix render_body (ns : list node) : result error str :=
              match ns with
              | [] => Ok []
              | n' :: ns' =>
                  s <- render_node env' n' ;;
                  t <- render_body ns' ;;
                  Ok (s ++ t)
              end) body)
        xs
  | If c body =>
      v <- eval env c ;;
      cond <- truthy v ;;
      if cond
      then (fix render_body (ns : list node) : result error str :=
              match ns with
              | [] => Ok []
              | n' :: ns' =>
                  s <- render_node env n' ;;
                  t <- render_body ns' ;;
                  Ok (s ++ t)
              end) body
      else Ok []
  end.

Definition render_nodes (env : context) (ns : list node) : result error str :=
  mapM_concat (render_node env) ns.

(** Names every template sees besides the ones passed to [render]. *)
Definition default_globals : context :=
  [("range", VOpaque); ("dict", VOpaque); ("lipsum", VOpaque);
   ("cycler", VOpaque); ("joiner", VOpaque); ("namespace", VOpaque)].

(** [jinja2.Template(source).render] applied to keyword arguments. *)
Definition render (source : list node) (kwargs : context) : result error str :=
  render_nodes (kwargs ++ default_globals) (compile source).

End Jinja.

(* ================================================================== *)
(** * The script *)

Import Py.
Import Jinja.
Local Open Scope string_scope.
Local Open Scope list_scope.

(** ** The report template

    [ISSUE_TEMPLATE] tag by tag; the text between the tags is the
    source's, character for character, line ends and trailing blanks
    included. *)

Definition ISSUE_TEMPLATE : list node :=
  [text "# This is a Bug Report
## Problem
Outdated files in the ";
   Output (Name "r_commit");
   text " branch.

### ";
   Output (Count (Name "files_to_be_modified"));
   text " files to be modified 
";
   For "m_file" (Name "files_to_be_modified") true
     [text "
  1. [ ] ";
      Output (Getattr (Name "m_file") "filepath");
      text " ";
      Output (Getattr (Name "m_file") "shortstat");
      text "
"];
   text "

### ";
   Output (Count (Name "files_to_be_renamed"));
   text " files to be renamed  
";
   For "r_file" (Name "files_to_be_renamed") true
     [text "
  1. [ ] ";
      Output (Getattr (Name "r_file") "diff_status_letter");
      text " ";
      Output (Getattr (Name "r_file") "src_filepath");
      text " -> ";
      Output (Getattr (Name "r_file") "dest_filepath");
      text "
"];
   text "

### ";
   Output (Count (Name "files_to_be_deleted"));
   text " files to be deleted 
";
   For "d_file" (Name "files_to_be_deleted") true
     [text "
  1. [ ] ";
      Output (Name "d_file");
      text "
"];
   text "

## Proposed Solution

";
   If (Name "files_to_be_modified")
     [text "

Use `git diff` to check what is changed in the upstream. And apply the upstream changes manually 
to the `";
      Output (Name "l10n_lang_path");
      text "` of `";
      Output (Name "r_commit");
      text "` branch.

For example:
```
# checkout `";
      Output (Name "r_commit");
      text "`
...
# check what is updated in the upstream 
git diff ";
      Output (Name "l_commit");
      text " ";
      Output (Name "r_commit");
      text " -- ";
      Output (Getattr (Getitem (Name "files_to_be_modified") 0) "filepath");
      text "
# apply changes to content/ko
vi ";
      Output (Replace (Getattr (Getitem (Name "files_to_be_modified") 0) "filepath")
                   (Name "src_lang_path") (Name "l10n_lang_path"));
      text "
...
# commit and push
...
# make PR to `";
      Output (Name "r_commit");
      text "`
```

"];
   text "

## Pages to Update

"].

(** ** Data

    The dictionaries the script builds have fixed keys; they are records
    here. [globals] holds the three module-level lists. *)

Record modified : Type := Modified {
  filepath : str;
  shortstat : str;
  diff : str
}.

Record renamed : Type := Renamed {
  diff_status_letter : str;
  src_filepath : str;
  dest_filepath : str
}.

Record globals : Type := Globals {
  files_to_be_deleted : list str;
  files_to_be_renamed : list renamed;
  files_to_be_modified : list modified
}.

(** The lists as the module creates them. *)
Definition initial_globals : globals := Globals [] [] [].

(** ** Exceptions and the monad of the script

    A computation starts from the current lists and either returns a value
    or raises; in both cases it leaves lists behind. *)

Inductive exn : Type :=
| IndexError
| CalledProcessError (returncode : Z) (cmd : list str)
| UnicodeDecodeError
| TemplateError (e : Jinja.error).

Inductive outcome (A : Type) : Type :=
| Returns (a : A) (g : globals)
| Raises (e : exn) (g : globals).

Arguments Returns {A} a g.
Arguments Raises {A} e g.

Definition M (A : Type) : Type := globals -> outcome A.

Definition ret {A} (a : A) : M A := fun g => Returns a g.
Definition raise {A} (e : exn) : M A := fun g => Raises e g.

Definition bind {A B} (c : M A) (k : A -> M B) : M B :=
  fun g =>
    match c g with
    | Returns a g' => k a g'
    | Raises e g' => Raises e g'
    end.

Definition get : M globals := fun g => Returns g g.
Definition modify (f : globals -> globals) : M unit := fun g => Returns tt (f g).

Declare Scope py_scope.
Delimit Scope py_scope with py.
Notation "x <- c ;; k" := (bind c (fun x => k))
  (at level 61, c at next level, right associativity) : py_scope.
Notation "c ;; k" := (bind c (fun _ => k))
  (at level 61, right associativity) : py_scope.
Local Open Scope py_scope.

(** [for x in xs: body(x)]. *)
Fixpoint for_each {A} (xs : list A) (body : A -> M unit) : M unit :=
  match xs with
  | [] => ret tt
  | x :: xs' => body x ;; for_each xs' body
  end.

(** [xs[i]] for a literal index [i >= 0]. *)
Definition index (xs : list str) (i : nat) : M str :=
  match nth_error xs i with
  | Some x => ret x
  | None => raise IndexError
  end.

(** [bs.decode("utf-8")]. *)
Definition decode_utf8 (bs : bytes) : M str :=
  match Py.decode bs with
  | Some s => ret s
  | None => raise UnicodeDecodeError
  end.

(** [xs.append(x)] on each of the three lists. *)
Definition append_deleted (p : str) : M unit :=
  modify (fun g => Globals (files_to_be_deleted g ++ [p])
                           (files_to_be_renamed g)
                           (files_to_be_modified g)).

Definition append_renamed (r : renamed) : M unit :=
  modify (fun g => Globals (files_to_be_deleted g)
                           (files_to_be_renamed g ++ [r])
                           (files_to_be_modified g)).

Definition append_modified (m : modified) : M unit :=
  modify (fun g => Globals (files_to_be_deleted g)
                           (files_to_be_renamed g)
                           (files_to_be_modified g ++ [m])).

(** ** Running git

    What a child process leaves behind: its exit status and what it wrote
    to standard output. *)

Record CompletedProcess : Type := Completed {
  returncode : Z;
  stdout : bytes
}.

Section Script.

(** The repository the script runs in, seen through the commands run on
    it: the same command gives the same answer throughout a run. The
    [git] executable is taken to be installed and the arguments handed to
    it to hold no NUL character, so that starting the child process itself
    does not fail. *)
Variable subprocess : list str -> CompletedProcess.

(** [subprocess.check_output(cmd)]. *)
Definition check_output (cmd : list str) : M bytes :=
  let p := subprocess cmd in
  if (returncode p =? 0)%Z then ret (stdout p)
  else raise (CalledProcessError (returncode p) cmd).

(** [subprocess.call(cmd, stderr=DEVNULL)]. *)
Definition call (cmd : list str) : M Z :=
  ret (returncode (subprocess cmd)).

Definition git_diff (filepath l_commit r_commit : str) (shortstat : bool)
  : M str :=
  let cmd := [u "git"; u "diff"; l_commit; r_commit; u "--"; filepath] in
  let cmd :=
    if shortstat
    then [u "git"; u "diff"; l_commit; r_commit; u "--shortstat"; u "--";
          filepath]
    else cmd in
  out <- check_output cmd ;;
  s <- decode_utf8 out ;;
  ret (strip s).

Definition git_exists (path filepath : str) : M bool :=
  let cmd := [u "git"; u "cat-file"; u "-e"; path ++ u ":" ++ filepath] in
  ret_code <- call cmd ;;
  ret (ret_code =? 0)%Z.

Definition process_diff_status (diff_status : list str)
    (l_commit r_commit src_lang_path l10n_lang_path : str) : M unit :=
  status_letter <- index diff_status 0 ;;
  filepath <- index diff_status 1 ;;
  found <- git_exists r_commit (replace filepath src_lang_path l10n_lang_path) ;;
  if found then
    if str_eqb status_letter (u "D") then
      append_deleted filepath
    else if startswith status_letter (u "R") then
      letter <- index diff_status 0 ;;
      src <- index diff_status 1 ;;
      dest <- index diff_status 2 ;;
      append_renamed (Renamed letter src dest)
    else if str_eqb status_letter (u "M") then
      summary <- git_diff filepath l_commit r_commit true ;;
      full <- git_diff filepath l_commit r_commit false ;;
      append_modified (Modified filepath summary full)
    else ret tt
  else ret tt.

Definition git_diff_name_status
    (l_commit r_commit src_lang_path l10n_lang_path : str) : M unit :=
  let cmd := [u "git"; u "diff"; l_commit; r_commit; u "--name-status";
              u "--"; src_lang_path] in
  out <- check_output cmd ;;
  let name_status_output := bytes_strip out in
  decoded <- decode_utf8 name_status_output ;;
  for_each (splitlines decoded)
    (fun line =>
       let diff_status := split line in
       process_diff_status diff_status l_commit r_commit src_lang_path
         l10n_lang_path).

(** ** Rendering *)

Definition modified_value (m : modified) : value :=
  VDict [("filepath", VStr (filepath m));
         ("shortstat", VStr (shortstat m));
         ("diff", VStr (diff m))].

Definition renamed_value (r : renamed) : value :=
  VDict [("diff_status_letter", VStr (diff_status_letter r));
         ("src_filepath", VStr (src_filepath r));
         ("dest_filepath", VStr (dest_filepath r))].

(** [issue_template.render(l_commit=..., ...)] on the lists [g]. *)
Definition render_issue
    (l_commit r_commit src_lang_path l10n_lang_path : str) (g : globals)
  : result Jinja.error str :=
  Jinja.render ISSUE_TEMPLATE
    [("l_commit", VStr l_commit);
     ("r_commit", VStr r_commit);
     ("src_lang_path", VStr src_lang_path);
     ("l10n_lang_path", VStr l10n_lang_path);
     ("files_to_be_deleted", VList (map VStr (files_to_be_deleted g)));
     ("files_to_be_modified",
      VList (map modified_value (files_to_be_modified g)));
     ("files_to_be_renamed",
      VList (map renamed_value (files_to_be_renamed g)))].

Definition lift_template {A} (r : result Jinja.error A) : M A :=
  match r with
  | Ok a => ret a
  | Err e => raise (TemplateError e)
  end.

(** [main]; the value returned is the text [print] writes. *)
Definition main (l10n_lang src_lang l_commit r_commit : str) : M str :=
  let l10n_lang_path := u "content/" ++ l10n_lang in
  let src_lang_path := u "content/" ++ src_lang in
  git_diff_name_status l_commit r_commit src_lang_path l10n_lang_path ;;
  g <- get ;;
  report <- lift_template
              (render_issue l_commit r_commit src_lang_path l10n_lang_path g) ;;
  ret (report ++ u "
").

End Script.

(* ================================================================== *)
(** * Vocabulary of the statements *)

(** [sub in s]. *)
Fixpoint contains (s sub : str) : bool :=
  startswith s sub
  || match s with
     | [] => false
     | _ :: t => contains t sub
     end.

Definition nl : str := [10%N].

(** One checklist line per entry. *)
Definition modified_item (m : modified) : str :=
  u "1. [ ] " ++ filepath m ++ u " " ++ shortstat m ++ nl.

Definition renamed_item (r : renamed) : str :=
  u "1. [ ] " ++ diff_status_letter r ++ u " " ++ src_filepath r
    ++ u " -> " ++ dest_filepath r ++ nl.

Definition deleted_item (d : str) : str :=
  u "1. [ ] " ++ d ++ nl.

(** The worked example printed under the proposed-solution header when
    [m] is the first modified file. *)
Definition worked_example
    (l_commit r_commit src_lang_path l10n_lang_path : str) (m : modified)
  : str :=
  nl ++ nl
  ++ u "Use `git diff` to check what is changed in the upstream. And apply the upstream changes manually "
  ++ nl
  ++ u "to the `" ++ l10n_lang_path ++ u "` of `" ++ r_commit ++ u "` branch."
  ++ nl ++ nl
  ++ u "For example:" ++ nl
  ++ u "```" ++ nl
  ++ u "# checkout `" ++ r_commit ++ u "`" ++ nl
  ++ u "..." ++ nl
  ++ u "# check what is updated in the upstream " ++ nl
  ++ u "git diff " ++ l_commit ++ u " " ++ r_commit ++ u " -- " ++ filepath m
  ++ nl
  ++ u "# apply changes to content/ko" ++ nl
  ++ u "vi " ++ replace (filepath m) src_lang_path l10n_lang_path ++ nl
  ++ u "..." ++ nl
  ++ u "# commit and push" ++ nl
  ++ u "..." ++ nl
  ++ u "# make PR to `" ++ r_commit ++ u "`" ++ nl
  ++ u "```" ++ nl ++ nl.

(** The report up to the proposed-solution header: the title and the
    three checklists. *)
Definition checklists (r_commit : str) (g : globals) : str :=
  u "# This is a Bug Report" ++ nl
  ++ u "## Problem" ++ nl
  ++ u "Outdated files in the " ++ r_commit ++ u " branch." ++ nl ++ nl
  ++ u "### " ++ str_of_nat (List.length (files_to_be_modified g))
  ++ u " files to be modified " ++ nl
  ++ List.concat (map modified_item (files_to_be_modified g))
  ++ nl ++ nl
  ++ u "### " ++ str_of_nat (List.length (files_to_be_renamed g))
  ++ u " files to be renamed  " ++ nl
  ++ List.concat (map renamed_item (files_to_be_renamed g))
  ++ nl ++ nl
  ++ u "### " ++ str_of_nat (List.length (files_to_be_deleted g))
  ++ u " files to be deleted " ++ nl
  ++ List.concat (map deleted_item (files_to_be_deleted g))
  ++ nl ++ nl.

(** The whole report. *)
Definition report_text
    (l_commit r_commit src_lang_path l10n_lang_path : str) (g : globals)
  : str :=
  checklists r_commit g
  ++ u "## Proposed Solution" ++ nl ++ nl
  ++ match files_to_be_modified g with
     | [] => []
     | m :: _ => worked_example l_commit r_commit src_lang_path l10n_lang_path m
     end
  ++ nl ++ nl
  ++ u "## Pages to Update" ++ nl.

(** The lists a computation leaves behind, and the lists of two runs put
    end to end. *)
Definition lists_after {A} (o : outcome A) : globals :=
  match o with
  | Returns _ g => g
  | Raises _ g => g
  end.

Definition gapp (g h : globals) : globals :=
  Globals (files_to_be_deleted g ++ files_to_be_deleted h)
          (files_to_be_renamed g ++ files_to_be_renamed h)
          (files_to_be_modified g ++ files_to_be_modified h).

(** [shift g o]: the outcome [o] of a run started from empty lists, as it
    shows when the run starts from the lists [g] instead. A computation
    only appends when every run of it is such a shift. *)
Definition shift {A} (g : globals) (o : outcome A) : outcome A :=
  match o with
  | Returns a h => Returns a (gapp g h)
  | Raises e h => Raises e (gapp g h)
  end.

Definition appends_only {A} (c : M A) : Prop :=
  forall g, c g = shift g (c initial_globals).

(** The command [git_exists] runs for [filepath] at revision [path]. *)
Definition cat_file_cmd (path filepath : str) : list str :=
  [u "git"; u "cat-file"; u "-e"; path ++ u ":" ++ filepath].

(** The commands the script runs. *)
Definition name_status_cmd (l_commit r_commit src_lang_path : str) : list str :=
  [u "git"; u "diff"; l_commit; r_commit; u "--name-status"; u "--";
   src_lang_path].

Definition diff_cmd (l_commit r_commit filepath : str) : list str :=
  [u "git"; u "diff"; l_commit; r_commit; u "--"; filepath].

Definition shortstat_cmd (l_commit r_commit filepath : str) : list str :=
  [u "git"; u "diff"; l_commit; r_commit; u "--shortstat"; u "--"; filepath].

(** The exit status of the existence check on the localized counterpart
    of [filepath] at revision [r_commit]. *)
Definition counterpart_status (subprocess : list str -> CompletedProcess)
    (r_commit src_lang_path l10n_lang_path filepath : str) : Z :=
  returncode
    (subprocess
       (cat_file_cmd r_commit
          (replace filepath src_lang_path l10n_lang_path))).

(** Every listed entry has a localized counterpart at [r_commit]. *)
Definition listed_with_counterpart (subprocess : list str -> CompletedProcess)
    (r_commit src_lang_path l10n_lang_path : str) (g : globals) : Prop :=
  Forall (fun p =>
            counterpart_status subprocess r_commit src_lang_path
              l10n_lang_path p = 0%Z)
         (files_to_be_deleted g)
  /\ Forall (fun x =>
               counterpart_status subprocess r_commit src_lang_path
                 l10n_lang_path (src_filepath x) = 0%Z)
            (files_to_be_renamed g)
  /\ Forall (fun m =>
               counterpart_status subprocess r_commit src_lang_path
                 l10n_lang_path (filepath m) = 0%Z)
            (files_to_be_modified g).

(** A token: non-empty and free of whitespace. *)
Definition is_token (s : str) : bool :=
  negb (Nat.eqb (List.length s) 0) && forallb (fun c => negb (isspace c)) s.


(** ** Sample repositories

    A repository is given by the answers to the commands run on it; any
    other command fails the way git does. *)
Definition cmd_eqb (c d : list str) : bool :=
  if list_eq_dec (list_eq_dec N.eq_dec) c d then true else false.

Definition git_failure : CompletedProcess := Completed 128 [].

Fixpoint answers (table : list (list str * CompletedProcess)) (cmd : list str)
  : CompletedProcess :=
  match table with
  | [] => git_failure
  | (c, p) :: table' => if cmd_eqb cmd c then p else answers table' cmd
  end.

Definition tab : bytes := [x09].
Definition lf : bytes := [x0a].

Definition older : str := u "dev-1.15-ko.3".
Definition newer : str := u "dev-1.15-ko.4".
Definition en : str := u "content/en".
Definition ko : str := u "content/ko".

(** Between the two milestones one page was modified, one renamed, two
    deleted and one added; all but the second deleted page have a Korean
    counterpart at the newer milestone. *)
Definition milestone_repo : list str -> CompletedProcess :=
  answers
    [(name_status_cmd older newer en,
      Completed 0
        (b "M" ++ tab ++ b "content/en/docs/a.md" ++ lf
         ++ b "R100" ++ tab ++ b "content/en/docs/old.md"
         ++ tab ++ b "content/en/docs/new.md" ++ lf
         ++ b "D" ++ tab ++ b "content/en/docs/gone.md" ++ lf
         ++ b "A" ++ tab ++ b "content/en/docs/added.md" ++ lf
         ++ b "D" ++ tab ++ b "content/en/docs/untranslated.md" ++ lf));
     (cat_file_cmd newer (u "content/ko/docs/a.md"), Completed 0 []);
     (cat_file_cmd newer (u "content/ko/docs/old.md"), Completed 0 []);
     (cat_file_cmd newer (u "content/ko/docs/gone.md"), Completed 0 []);
     (cat_file_cmd newer (u "content/ko/docs/added.md"), Completed 0 []);
     (shortstat_cmd older newer (u "content/en/docs/a.md"),
      Completed 0
        (b " 1 file changed, 2 insertions(+), 1 deletion(-)" ++ lf));
     (diff_cmd older newer (u "content/en/docs/a.md"),
      Completed 0
        (b "diff --git a/content/en/docs/a.md b/content/en/docs/a.md" ++ lf
         ++ b "@@ -1,2 +1,3 @@" ++ lf
         ++ b "-old line" ++ lf
         ++ b "+new line" ++ lf
         ++ b "+another line" ++ lf))].

(** The lists one pass over [milestone_repo] builds. *)
Definition milestone_lists : globals :=
  Globals
    [u "content/en/docs/gone.md"]
    [Renamed (u "R100") (u "content/en/docs/old.md")
       (u "content/en/docs/new.md")]
    [Modified (u "content/en/docs/a.md")
       (u "1 file changed, 2 insertions(+), 1 deletion(-)")
       (u "diff --git a/content/en/docs/a.md b/content/en/docs/a.md" ++ nl
        ++ u "@@ -1,2 +1,3 @@" ++ nl
        ++ u "-old line" ++ nl
        ++ u "+new line" ++ nl
        ++ u "+another line")].

(** The two milestones do not differ under the source path. *)
Definition unchanged_repo : list str -> CompletedProcess :=
  answers [(name_status_cmd older newer en, Completed 0 [])].


(** The name-status listing has an empty line in its middle. *)
Definition blank_line_repo : list str -> CompletedProcess :=
  answers
    [(name_status_cmd older newer en,
      Completed 0
        (b "D" ++ tab ++ b "content/en/docs/gone.md" ++ lf ++ lf
         ++ b "D" ++ tab ++ b "content/en/docs/gone2.md" ++ lf));
     (cat_file_cmd newer (u "content/ko/docs/gone.md"), Completed 0 []);
     (cat_file_cmd newer (u "content/ko/docs/gone2.md"), Completed 0 [])].

(** ** Further vocabulary *)

(** [sep.join(xs)]. *)
Fixpoint join (sep : str) (xs : list str) : str :=
  match xs with
  | [] => []
  | x :: xs' =>
      match xs' with
      | [] => x
      | _ :: _ => x ++ sep ++ join sep xs'
      end
  end.

(** Free of the characters [str.splitlines] cuts at. *)
Definition no_linebreak (s : str) : bool :=
  forallb (fun c => negb (islinebreak c)) s.

(** Neither the first nor the last character is whitespace. *)
Definition trimmed (s : str) : Prop :=
  (forall c t, s = c :: t -> isspace c = false)
  /\ (forall t c, s = t ++ [c] -> isspace c = false).

(** The number of entries in the three lists. *)
Definition entries (g : globals) : nat :=
  List.length (files_to_be_deleted g)
  + List.length (files_to_be_renamed g)
  + List.length (files_to_be_modified g).

(** The loop of [git_diff_name_status] over the lines of the listing. *)
Definition process_lines (subprocess : list str -> CompletedProcess)
    (l_commit r_commit src_lang_path l10n_lang_path : str)
    (lines : list str) : M unit :=
  for_each lines
    (fun line =>
       process_diff_status subprocess (split line) l_commit r_commit
         src_lang_path l10n_lang_path).

(** The lines of the name-status listing the loop runs over; none when the
    listing could not be had. *)
Definition listing_lines (subprocess : list str -> CompletedProcess)
    (l_commit r_commit src_lang_path : str) : list str :=
  let p := subprocess (name_status_cmd l_commit r_commit src_lang_path) in
  if (returncode p =? 0)%Z
  then match Py.decode (bytes_strip (stdout p)) with
       | Some decoded => splitlines decoded
       | None => []
       end
  else [].

(** The listing command fails. *)
Definition broken_repo : list str -> CompletedProcess := answers [].

(* ================================================================== *)
(** * Facts about the text primitives *)

Lemma startswith_app (p s : str) : startswith (p ++ s) p = true.
Proof.
  induction p as [|x p IH]; simpl.
  - destruct s; reflexivity.
  - now rewrite N.eqb_refl, IH.
Qed.

Lemma contains_unfold (s sub : str) :
  contains s sub
  = startswith s sub || match s with [] => false | _ :: t => contains t sub end.
Proof. destruct s; reflexivity. Qed.

Lemma contains_app (pre sub post : str) :
  contains (pre ++ sub ++ post) sub = true.
Proof.
  induction pre as [|c pre IH]; simpl.
  - rewrite contains_unfold, startswith_app. reflexivity.
  - rewrite IH. apply orb_true_r.
Qed.

Lemma str_eqb_eq (s t : str) : str_eqb s t = true <-> s = t.
Proof.
  unfold str_eqb. destruct (list_eq_dec N.eq_dec s t); split;
    congruence.
Qed.

Lemma str_eqb_neq (s t : str) : s <> t -> str_eqb s t = false.
Proof.
  intros H. destruct (str_eqb s t) eqn:E; [|reflexivity].
  apply str_eqb_eq in E. contradiction.
Qed.

(** A token that starts with R is neither D nor M. *)
Lemma startswith_R_not_D (s : str) :
  startswith s (u "R") = true -> str_eqb s (u "D") = false.
Proof.
  intros H. apply str_eqb_neq. intros ->. discriminate H.
Qed.

Lemma split_from_token (cur tok rest : str) :
  forallb (fun c => negb (isspace c)) tok = true ->
  split_from cur (tok ++ rest) = split_from (cur ++ tok) rest.
Proof.
  revert cur. induction tok as [|c tok IH]; intros cur H; simpl.
  - now rewrite app_nil_r.
  - simpl in H. apply andb_true_iff in H as [Hc Htok].
    apply negb_true_iff in Hc. rewrite Hc, IH by assumption.
    now rewrite <- app_assoc.
Qed.

Lemma split_from_space (cur : str) (w : N) (rest : str) :
  cur <> [] -> isspace w = true ->
  split_from cur (w :: rest) = cur :: split rest.
Proof.
  intros Hcur Hw. simpl. rewrite Hw. destruct cur; [contradiction|reflexivity].
Qed.

Lemma is_token_inv (s : str) :
  is_token s = true ->
  s <> [] /\ forallb (fun c => negb (isspace c)) s = true.
Proof.
  unfold is_token. intros H. apply andb_true_iff in H as [Hn Hs].
  split; [|assumption]. intros ->. discriminate Hn.
Qed.

(** The first token of a line, and what follows it. *)
Lemma split_first_token (tok : str) (w : N) (rest : str) :
  is_token tok = true -> isspace w = true ->
  split (tok ++ w :: rest) = tok :: split rest.
Proof.
  intros Htok Hw. apply is_token_inv in Htok as [Hne Hns].
  unfold split at 1. rewrite split_from_token by assumption. simpl app.
  now apply split_from_space.
Qed.

(** The primitives on inputs of the kinds the script meets. *)
Example split_name_status_line :
  split (u "R100" ++ [9; 32] ++ u "content/en/a.md" ++ [9]
         ++ u "content/en/b.md")%N
  = [u "R100"; u "content/en/a.md"; u "content/en/b.md"].
Proof. reflexivity. Qed.

Example split_blank_line : split [32; 9]%N = [].
Proof. reflexivity. Qed.

Example splitlines_mixed_terminators :
  splitlines (u "a" ++ [13; 10] ++ u "b" ++ [10; 10] ++ u "c" ++ [10])%N
  = [u "a"; u "b"; []; u "c"].
Proof. reflexivity. Qed.

Example splitlines_empty : splitlines [] = [].
Proof. reflexivity. Qed.

Example replace_every_occurrence :
  replace (u "content/en/docs/content/en/a.md") (u "content/en")
    (u "content/ko")
  = u "content/ko/docs/content/ko/a.md".
Proof. reflexivity. Qed.

Example replace_does_not_overlap :
  replace (u "aaa") (u "aa") (u "b") = u "ba".
Proof. reflexivity. Qed.

Example replace_empty_pattern :
  replace (u "ab") [] (u "-") = u "-a-b-".
Proof. reflexivity. Qed.

Example strip_summary :
  strip (u " 1 file changed" ++ [10])%N = u "1 file changed".
Proof. reflexivity. Qed.

Example decode_hangul : Py.decode [xed; x95; x9c] = Some [54620%N].
Proof. reflexivity. Qed.

Example decode_four_bytes :
  Py.decode [xf0; x9f; x98; x80] = Some [128512%N].
Proof. reflexivity. Qed.

Example decode_rejects_overlong : Py.decode [xc0; x80] = None.
Proof. reflexivity. Qed.

Example decode_rejects_surrogate : Py.decode [xed; xa0; x80] = None.
Proof. reflexivity. Qed.

Example decode_rejects_truncated : Py.decode [xe2; x82] = None.
Proof. reflexivity. Qed.

(* ================================================================== *)
(** * The rendered report in closed form *)

Section Rendering.

Local Open Scope result_scope.

Lemma render_body_eq (env : context) (body : list node) :
  (fix render_body (ns : list node) : result error str :=
     match ns with
     | [] => Ok []
     | n' :: ns' =>
         s <- render_node env n' ;;
         t <- render_body ns' ;;
         Ok (s ++ t)
     end) body
  = render_nodes env body.
Proof.
  induction body as [|n ns IH]; [reflexivity|].
  unfold render_nodes in *. simpl. now rewrite IH.
Qed.

Lemma mapM_concat_ok {A B} (conv : A -> B) (f : B -> result error str)
    (txt : A -> str) (xs : list A) :
  (forall a, f (conv a) = Ok (txt a)) ->
  mapM_concat f (map conv xs) = Ok (List.concat (map txt xs)).
Proof.
  intros H. induction xs as [|x xs IH]; simpl; [reflexivity|].
  now rewrite H, IH.
Qed.

(** A loop over a list of converted entries prints the entries' texts in
    list order. *)
Lemma render_for {A} (env : context) (x : string) (it : expr)
    (body : list node) (conv : A -> value) (xs : list A) (txt : A -> str) :
  eval env it = Ok (VList (map conv xs)) ->
  (forall a,
     render_nodes ((x, conv a) :: ("loop", VOpaque) :: env) body
     = Ok (txt a)) ->
  render_node env (For x it false body) = Ok (List.concat (map txt xs)).
Proof.
  intros Hit Hbody. simpl. rewrite Hit. simpl.
  apply mapM_concat_ok. intros a. rewrite render_body_eq. apply Hbody.
Qed.

Lemma render_count {A} (env : context) (e : expr) (conv : A -> value)
    (xs : list A) :
  eval env e = Ok (VList (map conv xs)) ->
  render_node env (Output (Count e)) = Ok (str_of_nat (List.length xs)).
Proof.
  intros H. simpl. rewrite H. simpl. now rewrite length_map.
Qed.

(** Rendering never fails on the script's data, and gives [report_text]. *)
Lemma render_issue_closed_form (l r src l10n : str) (g : globals) :
  render_issue l r src l10n g = Ok (report_text l r src l10n g).
Proof.
  destruct g as [dels rens mods].
  unfold render_issue, render.
  match goal with |- render_nodes ?e _ = _ => set (env := e) end.
  let c := eval vm_compute in (compile ISSUE_TEMPLATE) in
  change (compile ISSUE_TEMPLATE) with c.
  unfold render_nodes. cbn [mapM_concat].
  rewrite (@render_for _ env "m_file" _ _ modified_value mods modified_item);
    [ | reflexivity | intros a; vm_compute; reflexivity ].
  rewrite (@render_for _ env "r_file" _ _ renamed_value rens renamed_item);
    [ | reflexivity | intros a; vm_compute; reflexivity ].
  rewrite (@render_for _ env "d_file" _ _ VStr dels deleted_item);
    [ | reflexivity | intros a; vm_compute; reflexivity ].
  rewrite (@render_count _ env (Name "files_to_be_modified") modified_value mods)
    by reflexivity.
  rewrite (@render_count _ env (Name "files_to_be_renamed") renamed_value rens)
    by reflexivity.
  rewrite (@render_count _ env (Name "files_to_be_deleted") VStr dels)
    by reflexivity.
  unfold report_text, checklists.
  destruct mods as [|m ms];
    cbn [files_to_be_modified files_to_be_renamed files_to_be_deleted];
    rewrite <- ?app_assoc; vm_compute; reflexivity.
Qed.

End Rendering.

(* ================================================================== *)
(** * The classification pass *)

Section Classification.

Local Open Scope py_scope.

Variable subprocess : list str -> CompletedProcess.
Variables l_commit r_commit src_lang_path l10n_lang_path : str.

Local Abbreviation status_of filepath :=
  (counterpart_status subprocess r_commit src_lang_path l10n_lang_path filepath).
Local Abbreviation process diff_status :=
  (process_diff_status subprocess diff_status l_commit r_commit src_lang_path
     l10n_lang_path).

(** [git_diff] reads the lists and leaves them as they are. *)
Lemma git_diff_eq (filepath : str) (shortstat : bool) (g : globals) :
  git_diff subprocess filepath l_commit r_commit shortstat g
  = let p := subprocess (if shortstat
                         then shortstat_cmd l_commit r_commit filepath
                         else diff_cmd l_commit r_commit filepath) in
    if (returncode p =? 0)%Z
    then match Py.decode (stdout p) with
         | Some s => Returns (strip s) g
         | None => Raises UnicodeDecodeError g
         end
    else Raises (CalledProcessError (returncode p)
                   (if shortstat
                    then shortstat_cmd l_commit r_commit filepath
                    else diff_cmd l_commit r_commit filepath)) g.
Proof.
  unfold git_diff, check_output, decode_utf8, bind, ret, raise, shortstat_cmd,
    diff_cmd.
  destruct shortstat; cbv zeta;
    (match goal with |- context [(returncode ?p =? 0)%Z] =>
       destruct (returncode p =? 0)%Z end; [|reflexivity]);
    match goal with |- context [Py.decode ?x] =>
      destruct (Py.decode x) end; reflexivity.
Qed.

Lemma git_diff_keeps_lists (filepath : str) (shortstat : bool) (g : globals) :
  lists_after (git_diff subprocess filepath l_commit r_commit shortstat g) = g.
Proof.
  rewrite git_diff_eq. cbv zeta.
  match goal with |- context [(returncode ?p =? 0)%Z] =>
    destruct (returncode p =? 0)%Z end; [|reflexivity].
  match goal with |- context [Py.decode ?x] =>
    destruct (Py.decode x) end; reflexivity.
Qed.

(** What one well-formed line (a status token and a primary path) does. *)
Lemma process_diff_status_eq (status filepath : str) (rest : list str)
    (g : globals) :
  process (status :: filepath :: rest) g
  = if (status_of filepath =? 0)%Z then
      if str_eqb status (u "D") then
        Returns tt (Globals (files_to_be_deleted g ++ [filepath])
                            (files_to_be_renamed g) (files_to_be_modified g))
      else if startswith status (u "R") then
        match rest with
        | dest :: _ =>
            Returns tt (Globals (files_to_be_deleted g)
                                (files_to_be_renamed g
                                 ++ [Renamed status filepath dest])
                                (files_to_be_modified g))
        | [] => Raises IndexError g
        end
      else if str_eqb status (u "M") then
        (summary <- git_diff subprocess filepath l_commit r_commit true ;;
         full <- git_diff subprocess filepath l_commit r_commit false ;;
         append_modified (Modified filepath summary full)) g
      else Returns tt g
    else Returns tt g.
Proof.
  cbv [process_diff_status counterpart_status cat_file_cmd git_exists call
       bind index nth_error ret raise append_deleted append_renamed modify].
  match goal with |- context [(?c =? 0)%Z] => destruct (c =? 0)%Z end;
    [|reflexivity].
  destruct (str_eqb status (u "D")); [reflexivity|].
  destruct (startswith status (u "R")).
  - destruct rest; reflexivity.
  - destruct (str_eqb status (u "M")); reflexivity.
Qed.

(** A line with fewer than two tokens. *)
Lemma process_diff_status_short (diff_status : list str) (g : globals) :
  (List.length diff_status < 2)%nat ->
  process diff_status g = Raises IndexError g.
Proof.
  destruct diff_status as [|a [|c rest]]; simpl; intros H;
    [reflexivity | reflexivity | lia].
Qed.

(** ** One line at a time *)

(** What a line can do to the lists: nothing, or append one entry built
    from it, and then its counterpart exists. *)
Lemma process_diff_status_effect (diff_status : list str) (g : globals) :
  lists_after (process diff_status g) = g
  \/ exists status filepath rest,
       diff_status = status :: filepath :: rest
       /\ status_of filepath = 0%Z
       /\ (lists_after (process diff_status g)
           = Globals (files_to_be_deleted g ++ [filepath])
                     (files_to_be_renamed g) (files_to_be_modified g)
           \/ (exists dest,
                  lists_after (process diff_status g)
                  = Globals (files_to_be_deleted g)
                            (files_to_be_renamed g
                             ++ [Renamed status filepath dest])
                            (files_to_be_modified g))
           \/ (exists summary full,
                  lists_after (process diff_status g)
                  = Globals (files_to_be_deleted g)
                            (files_to_be_renamed g)
                            (files_to_be_modified g
                             ++ [Modified filepath summary full]))).
Proof.
  destruct diff_status as [|status [|filepath rest]];
    [left; reflexivity | left; reflexivity | ].
  rewrite process_diff_status_eq.
  destruct (status_of filepath =? 0)%Z eqn:Hfound; [|left; reflexivity].
  apply Z.eqb_eq in Hfound.
  destruct (str_eqb status (u "D")).
  { right. exists status, filepath, rest. repeat split; trivial.
    left. reflexivity. }
  destruct (startswith status (u "R")).
  { destruct rest as [|dest rest']; [left; reflexivity|].
    right. exists status, filepath, (dest :: rest'). repeat split; trivial.
    right. left. exists dest. reflexivity. }
  destruct (str_eqb status (u "M")); [|left; reflexivity].
  unfold bind.
  pose proof (git_diff_keeps_lists filepath true g) as H1.
  destruct (git_diff subprocess filepath l_commit r_commit true g)
    as [summary g1|e g1]; simpl in H1; subst g1; [|left; reflexivity].
  pose proof (git_diff_keeps_lists filepath false g) as H2.
  destruct (git_diff subprocess filepath l_commit r_commit false g)
    as [full g2|e g2]; simpl in H2; subst g2; [|left; reflexivity].
  right. exists status, filepath, rest. repeat split; trivial.
  right. right. exists summary, full. reflexivity.
Qed.

(** C3. For a line whose localized counterpart exists, the status token
    decides: the token D appends the primary path to the deleted list; a
    token starting with R appends an entry to the renamed list; the token
    M (both diffs of the path being available) appends an entry to the
    modified list; a line with any other status token returns normally
    and leaves the three lists as they were. *)
Theorem status_token_dispatch
    (status filepath : str) (rest : list str) (g : globals) :
  status_of filepath = 0%Z ->
  (status = u "D" ->
   process (status :: filepath :: rest) g
   = Returns tt (Globals (files_to_be_deleted g ++ [filepath])
                         (files_to_be_renamed g) (files_to_be_modified g)))
  /\ (forall dest rest',
         startswith status (u "R") = true ->
         rest = dest :: rest' ->
         process (status :: filepath :: rest) g
         = Returns tt (Globals (files_to_be_deleted g)
                               (files_to_be_renamed g
                                ++ [Renamed status filepath dest])
                               (files_to_be_modified g)))
  /\ (forall summary full,
         status = u "M" ->
         returncode (subprocess (shortstat_cmd l_commit r_commit filepath))
         = 0%Z ->
         Py.decode
           (stdout (subprocess (shortstat_cmd l_commit r_commit filepath)))
         = Some summary ->
         returncode (subprocess (diff_cmd l_commit r_commit filepath)) = 0%Z ->
         Py.decode (stdout (subprocess (diff_cmd l_commit r_commit filepath)))
         = Some full ->
         process (status :: filepath :: rest) g
         = Returns tt (Globals (files_to_be_deleted g)
                               (files_to_be_renamed g)
                               (files_to_be_modified g
                                ++ [Modified filepath (strip summary)
                                      (strip full)])))
  /\ (status <> u "D" ->
      startswith status (u "R") = false ->
      status <> u "M" ->
      process (status :: filepath :: rest) g = Returns tt g).
Proof.
  intros Hfound. apply Z.eqb_eq in Hfound.
  repeat split.
  - intros ->. rewrite process_diff_status_eq, Hfound. reflexivity.
  - intros dest rest' HR ->.
    rewrite process_diff_status_eq, Hfound, (startswith_R_not_D _ HR), HR.
    reflexivity.
  - intros summary full -> Hc1 Hd1 Hc2 Hd2.
    rewrite process_diff_status_eq, Hfound.
    change (str_eqb (u "M") (u "D")) with false.
    change (startswith (u "M") (u "R")) with false.
    change (str_eqb (u "M") (u "M")) with true.
    cbv iota. unfold bind.
    rewrite git_diff_eq. cbv zeta. rewrite Hc1, Hd1, Z.eqb_refl. cbv beta iota.
    rewrite git_diff_eq. cbv zeta. rewrite Hc2, Hd2, Z.eqb_refl. reflexivity.
  - intros HD HR HM.
    rewrite process_diff_status_eq, Hfound, (str_eqb_neq HD), HR,
      (str_eqb_neq HM).
    reflexivity.
Qed.

(** C4. For a line whose status token starts with R, whatever follows
    the R, the existence check is the one on the localized counterpart of
    the old (first) path; when that counterpart exists exactly one entry
    (status token, old path, new path) is appended to the renamed list,
    and nothing else changes; when it does not, nothing changes. *)
Theorem rename_entry_once
    (status old new : str) (rest : list str) (g : globals) :
  startswith status (u "R") = true ->
  process (status :: old :: new :: rest) g
  = if (returncode
          (subprocess
             (cat_file_cmd r_commit
                (replace old src_lang_path l10n_lang_path))) =? 0)%Z
    then Returns tt (Globals (files_to_be_deleted g)
                             (files_to_be_renamed g
                              ++ [Renamed status old new])
                             (files_to_be_modified g))
    else Returns tt g.
Proof.
  intros HR.
  rewrite process_diff_status_eq, (startswith_R_not_D _ HR), HR.
  reflexivity.
Qed.


(** C9, as amended. Lines are cut into tokens at whitespace, so a
    primary path that contains whitespace reaches the script cut at its
    first whitespace character. A line with fewer than two tokens raises
    IndexError, whatever the repository holds. A line of exactly two
    tokens whose status token starts with R raises IndexError when the
    localized counterpart of its path exists, and is passed over without
    an error when it does not. *)
Theorem short_lines_and_spaced_paths :
  (forall diff_status g,
      (List.length diff_status < 2)%nat ->
      process diff_status g = Raises IndexError g)
  /\ (forall status old g,
         startswith status (u "R") = true ->
         process [status; old] g
         = if (status_of old =? 0)%Z then Raises IndexError g
           else Returns tt g)
  /\ (forall status head tail w1 w2,
         is_token status = true -> is_token head = true ->
         isspace w1 = true -> isspace w2 = true ->
         split (status ++ w1 :: head ++ w2 :: tail)
         = status :: head :: split tail).
Proof.
  repeat split.
  - intros diff_status g Hlen. now apply process_diff_status_short.
  - intros status old g HR.
    rewrite process_diff_status_eq, (startswith_R_not_D _ HR), HR.
    reflexivity.
  - intros status head tail w1 w2 Hs Hh Hw1 Hw2.
    rewrite split_first_token by assumption.
    now rewrite split_first_token by assumption.
Qed.

(** ** The whole pass *)

Local Abbreviation pass :=
  (git_diff_name_status subprocess l_commit r_commit src_lang_path
     l10n_lang_path).

(** C5. When the name-and-status diff succeeds with empty output (no
    changed path), the pass returns normally and the three lists are
    empty. *)
Theorem no_changes_is_not_an_error :
  returncode (subprocess (name_status_cmd l_commit r_commit src_lang_path))
  = 0%Z ->
  bytes_strip
    (stdout (subprocess (name_status_cmd l_commit r_commit src_lang_path)))
  = [] ->
  pass initial_globals = Returns tt (Globals [] [] []).
Proof.
  intros Hcode Hout.
  unfold git_diff_name_status, check_output, bind.
  fold (name_status_cmd l_commit r_commit src_lang_path).
  rewrite Hcode, Z.eqb_refl. unfold ret at 1. cbv zeta. rewrite Hout.
  reflexivity.
Qed.

(** *** The lists are only appended to *)

Lemma gapp_nil_r (g : globals) : gapp g initial_globals = g.
Proof. destruct g. unfold gapp. simpl. now rewrite !app_nil_r. Qed.

Lemma gapp_assoc (g h k : globals) : gapp g (gapp h k) = gapp (gapp g h) k.
Proof. unfold gapp. simpl. now rewrite !app_assoc. Qed.

Lemma shift_shift {A} (g h : globals) (o : outcome A) :
  shift g (shift h o) = shift (gapp g h) o.
Proof. destruct o; simpl; now rewrite gapp_assoc. Qed.

Lemma appends_only_ret {A} (a : A) : appends_only (ret a).
Proof. intros g. simpl. now rewrite gapp_nil_r. Qed.

Lemma appends_only_raise {A} (e : exn) : appends_only (@raise A e).
Proof. intros g. simpl. now rewrite gapp_nil_r. Qed.

Lemma appends_only_bind {A B} (c : M A) (k : A -> M B) :
  appends_only c -> (forall a, appends_only (k a)) -> appends_only (bind c k).
Proof.
  intros Hc Hk g. unfold bind. rewrite (Hc g).
  destruct (c initial_globals) as [a h|e h]; simpl; [|reflexivity].
  rewrite (Hk a (gapp g h)), (Hk a h). now rewrite shift_shift.
Qed.

Lemma appends_only_if {A} (c : bool) (x y : M A) :
  appends_only x -> appends_only y -> appends_only (if c then x else y).
Proof. now destruct c. Qed.

Lemma appends_only_for_each {A} (xs : list A) (body : A -> M unit) :
  (forall x, appends_only (body x)) -> appends_only (for_each xs body).
Proof.
  intros Hbody. induction xs as [|x xs IH]; simpl.
  - apply appends_only_ret.
  - apply appends_only_bind; [apply Hbody | intros _; apply IH].
Qed.

Lemma appends_only_index (xs : list str) (i : nat) : appends_only (index xs i).
Proof.
  unfold index. destruct (nth_error xs i);
    [apply appends_only_ret | apply appends_only_raise].
Qed.

Lemma appends_only_decode_utf8 (bs : bytes) : appends_only (decode_utf8 bs).
Proof.
  unfold decode_utf8. destruct (Py.decode bs);
    [apply appends_only_ret | apply appends_only_raise].
Qed.

Lemma appends_only_check_output (cmd : list str) :
  appends_only (check_output subprocess cmd).
Proof.
  unfold check_output. cbv zeta.
  apply appends_only_if; [apply appends_only_ret | apply appends_only_raise].
Qed.

Lemma appends_only_append_deleted (p : str) : appends_only (append_deleted p).
Proof.
  intros [d r m]. cbv [shift gapp modify initial_globals append_deleted
    append_renamed append_modified files_to_be_deleted files_to_be_renamed
    files_to_be_modified].
  simpl. now rewrite !app_nil_r.
Qed.

Lemma appends_only_append_renamed (x : renamed) :
  appends_only (append_renamed x).
Proof.
  intros [d r m]. cbv [shift gapp modify initial_globals append_deleted
    append_renamed append_modified files_to_be_deleted files_to_be_renamed
    files_to_be_modified].
  simpl. now rewrite !app_nil_r.
Qed.

Lemma appends_only_append_modified (x : modified) :
  appends_only (append_modified x).
Proof.
  intros [d r m]. cbv [shift gapp modify initial_globals append_deleted
    append_renamed append_modified files_to_be_deleted files_to_be_renamed
    files_to_be_modified].
  simpl. now rewrite !app_nil_r.
Qed.

Lemma appends_only_git_diff (filepath : str) (shortstat : bool) :
  appends_only (git_diff subprocess filepath l_commit r_commit shortstat).
Proof.
  unfold git_diff. cbv zeta.
  apply appends_only_bind; [apply appends_only_check_output|]. intros out.
  apply appends_only_bind; [apply appends_only_decode_utf8|]. intros s.
  apply appends_only_ret.
Qed.

Lemma appends_only_git_exists (path filepath : str) :
  appends_only (git_exists subprocess path filepath).
Proof.
  unfold git_exists, call. cbv zeta.
  apply appends_only_bind; [apply appends_only_ret|]. intros c.
  apply appends_only_ret.
Qed.

Lemma appends_only_process_diff_status (diff_status : list str) :
  appends_only (process diff_status).
Proof.
  unfold process_diff_status.
  apply appends_only_bind; [apply appends_only_index|]. intros status.
  apply appends_only_bind; [apply appends_only_index|]. intros filepath.
  apply appends_only_bind; [apply appends_only_git_exists|]. intros found.
  repeat first
    [ apply appends_only_git_diff
    | apply appends_only_index
    | apply appends_only_append_deleted
    | apply appends_only_append_renamed
    | apply appends_only_append_modified
    | apply appends_only_ret
    | apply appends_only_if
    | apply appends_only_bind; [ | intro ] ].
Qed.

Lemma appends_only_pass : appends_only pass.
Proof.
  unfold git_diff_name_status. cbv zeta.
  apply appends_only_bind; [apply appends_only_check_output|]. intros out.
  apply appends_only_bind; [apply appends_only_decode_utf8|]. intros decoded.
  apply appends_only_for_each. intros line.
  apply appends_only_process_diff_status.
Qed.

Lemma app_self_nil {A} (xs : list A) : xs ++ xs = xs -> xs = [].
Proof.
  intros H. apply (f_equal (@List.length A)) in H.
  rewrite length_app in H. destruct xs; [reflexivity | simpl in H; lia].
Qed.

Lemma gapp_self (g : globals) : gapp g g = g -> g = initial_globals.
Proof.
  destruct g as [d r m]. unfold gapp. simpl. intros H. injection H as Hd Hr Hm.
  apply app_self_nil in Hd, Hr, Hm. now subst.
Qed.

(** *** Every listed entry has a counterpart *)

Local Abbreviation listed g :=
  (listed_with_counterpart subprocess r_commit src_lang_path l10n_lang_path g).

Lemma listed_after_line (diff_status : list str) (g : globals) :
  listed g -> listed (lists_after (process diff_status g)).
Proof.
  intros (Hd & Hr & Hm).
  destruct (process_diff_status_effect diff_status g)
    as [-> | (status & filepath & rest & _ & Hfound & [-> | [[dest ->] | [summary [full ->]]]])];
    unfold listed_with_counterpart; cbn [files_to_be_deleted
      files_to_be_renamed files_to_be_modified];
    repeat split; trivial;
    apply Forall_app; split; trivial; constructor; trivial.
Qed.

Lemma lists_after_for_each {A} (P : globals -> Prop) (body : A -> M unit)
    (xs : list A) :
  (forall x g, P g -> P (lists_after (body x g))) ->
  forall g, P g -> P (lists_after (for_each xs body g)).
Proof.
  intros Hbody. induction xs as [|x xs IH]; intros g Hg; [exact Hg|].
  simpl. unfold bind. specialize (Hbody x g Hg).
  destruct (body x g) as [[] g'|e g']; simpl in Hbody; [|exact Hbody].
  now apply IH.
Qed.

Lemma listed_after_pass (g : globals) :
  listed g -> listed (lists_after (pass g)).
Proof.
  intros Hg. unfold git_diff_name_status, check_output, decode_utf8, bind.
  cbv zeta.
  match goal with |- context [(returncode ?p =? 0)%Z] =>
    destruct (returncode p =? 0)%Z end; [|exact Hg].
  unfold ret at 1.
  match goal with |- context [Py.decode ?x] =>
    destruct (Py.decode x) end; [|exact Hg].
  unfold ret at 1.
  apply lists_after_for_each; [|exact Hg].
  intros line g' Hg'. now apply listed_after_line.
Qed.

(** C2. An entry derived from a line enters a list only if the localized
    counterpart of the line's primary path (the path with the source path
    replaced by the target path) exists at the newer revision. A line
    whose counterpart does not exist leaves the three lists as they were.
    Whenever a line changes the lists, its counterpart exists and the
    change is one entry, built from that line, appended to one list. So
    after a pass started from empty lists, whether it returned or raised,
    every entry of the three lists has a counterpart. *)
Theorem entries_only_for_existing_counterparts :
  (forall status filepath rest g,
      status_of filepath <> 0%Z ->
      process (status :: filepath :: rest) g = Returns tt g)
  /\ (forall diff_status g,
         lists_after (process diff_status g) = g
         \/ exists status filepath rest,
              diff_status = status :: filepath :: rest
              /\ status_of filepath = 0%Z
              /\ (lists_after (process diff_status g)
                  = Globals (files_to_be_deleted g ++ [filepath])
                            (files_to_be_renamed g) (files_to_be_modified g)
                  \/ (exists dest,
                         lists_after (process diff_status g)
                         = Globals (files_to_be_deleted g)
                                   (files_to_be_renamed g
                                    ++ [Renamed status filepath dest])
                                   (files_to_be_modified g))
                  \/ (exists summary full,
                         lists_after (process diff_status g)
                         = Globals (files_to_be_deleted g)
                                   (files_to_be_renamed g)
                                   (files_to_be_modified g
                                    ++ [Modified filepath summary full]))))
  /\ listed (lists_after (pass initial_globals)).
Proof.
  split; [|split].
  - intros status filepath rest g Hmissing.
    rewrite process_diff_status_eq.
    apply Z.eqb_neq in Hmissing. now rewrite Hmissing.
  - exact process_diff_status_effect.
  - apply listed_after_pass. repeat split; constructor.
Qed.

(** C10. The three lists are only ever appended to: a pass started from
    any lists leaves those lists followed by what the same pass appends
    when started from empty lists. Hence a second pass over the same
    repository, started from the lists [g1] a first pass left, ends with
    [g1] twice over, which is not [g1] again unless [g1] is empty. *)
Theorem second_pass_doubles_the_lists :
  (forall g, pass g = shift g (pass initial_globals))
  /\ (forall g1,
         pass initial_globals = Returns tt g1 ->
         pass g1 = Returns tt (gapp g1 g1)
         /\ (g1 <> initial_globals -> pass g1 <> Returns tt g1)).
Proof.
  split; [exact appends_only_pass|].
  intros g1 Hfirst.
  assert (Hsecond : pass g1 = Returns tt (gapp g1 g1)).
  { rewrite (appends_only_pass g1), Hfirst. reflexivity. }
  split; [assumption|].
  intros Hne Hsame. rewrite Hsecond in Hsame.
  injection Hsame as Hsame. apply gapp_self in Hsame. contradiction.
Qed.

End Classification.

(* ================================================================== *)
(** * The report *)

Section Report.

Variables l_commit r_commit src_lang_path l10n_lang_path : str.

Local Abbreviation report g :=
  (render_issue l_commit r_commit src_lang_path l10n_lang_path g).

(** C8. Whatever the revisions and the three lists, rendering succeeds
    and the report is, in this order: the title with the line naming the
    newer revision; the modified checklist, headed by the length of the
    modified list; the renamed checklist, headed by its count, each
    rename shown as status token, old path, [->], new path; the deleted
    checklist, headed by its count; the proposed-solution header with the
    worked example under it when the modified list is not empty; the empty
    "Pages to Update" section. Each checklist shows its entries in list
    order. *)
Theorem report_layout (g : globals) :
  report g
  = Ok ((u "# This is a Bug Report" ++ nl
         ++ u "## Problem" ++ nl
         ++ u "Outdated files in the " ++ r_commit ++ u " branch." ++ nl
         ++ nl)
        ++ (u "### " ++ str_of_nat (List.length (files_to_be_modified g))
            ++ u " files to be modified " ++ nl
            ++ List.concat
                 (map (fun m => u "1. [ ] " ++ filepath m ++ u " "
                                ++ shortstat m ++ nl)
                      (files_to_be_modified g))
            ++ nl ++ nl)
        ++ (u "### " ++ str_of_nat (List.length (files_to_be_renamed g))
            ++ u " files to be renamed  " ++ nl
            ++ List.concat
                 (map (fun r => u "1. [ ] " ++ diff_status_letter r ++ u " "
                                ++ src_filepath r ++ u " -> "
                                ++ dest_filepath r ++ nl)
                      (files_to_be_renamed g))
            ++ nl ++ nl)
        ++ (u "### " ++ str_of_nat (List.length (files_to_be_deleted g))
            ++ u " files to be deleted " ++ nl
            ++ List.concat
                 (map (fun d => u "1. [ ] " ++ d ++ nl)
                      (files_to_be_deleted g))
            ++ nl ++ nl)
        ++ (u "## Proposed Solution" ++ nl ++ nl
            ++ match files_to_be_modified g with
               | [] => []
               | m :: _ =>
                   worked_example l_commit r_commit src_lang_path
                     l10n_lang_path m
               end
            ++ nl ++ nl)
        ++ (u "## Pages to Update" ++ nl)).
Proof.
  rewrite render_issue_closed_form. f_equal.
  unfold report_text, checklists.
  change (fun m => u "1. [ ] " ++ filepath m ++ u " " ++ shortstat m ++ nl)
    with modified_item.
  change (fun r => u "1. [ ] " ++ diff_status_letter r ++ u " "
                   ++ src_filepath r ++ u " -> " ++ dest_filepath r ++ nl)
    with renamed_item.
  change (fun d => u "1. [ ] " ++ d ++ nl) with deleted_item.
  rewrite <- ?app_assoc. reflexivity.
Qed.

(** C1, as amended. The header "## Proposed Solution" is part of every
    report, followed by an empty line and preceding the "Pages to Update"
    section. What stands between them is nothing when the modified list is
    empty; when it is not, it contains the line [git diff] of the two
    revisions for the first modified file's path and the line [vi] of
    that path with the source path replaced by the target path. *)
Theorem proposed_solution_header_always_rendered (g : globals) :
  exists pre body,
    report g
    = Ok (pre ++ u "## Proposed Solution" ++ nl ++ nl
          ++ body ++ nl ++ nl ++ u "## Pages to Update" ++ nl)
    /\ match files_to_be_modified g with
       | [] => body = []
       | m :: _ =>
           exists a c d,
             body
             = a ++ (u "git diff " ++ l_commit ++ u " " ++ r_commit
                      ++ u " -- " ++ filepath m ++ nl)
               ++ c ++ (u "vi "
                        ++ replace (filepath m) src_lang_path l10n_lang_path
                        ++ nl)
               ++ d
       end.
Proof.
  exists (checklists r_commit g).
  exists (match files_to_be_modified g with
          | [] => []
          | m :: _ =>
              worked_example l_commit r_commit src_lang_path l10n_lang_path m
          end).
  split; [apply render_issue_closed_form|].
  destruct (files_to_be_modified g) as [|m ms]; [reflexivity|].
  exists (nl ++ nl
          ++ u "Use `git diff` to check what is changed in the upstream. And apply the upstream changes manually "
          ++ nl
          ++ u "to the `" ++ l10n_lang_path ++ u "` of `" ++ r_commit
          ++ u "` branch." ++ nl ++ nl
          ++ u "For example:" ++ nl
          ++ u "```" ++ nl
          ++ u "# checkout `" ++ r_commit ++ u "`" ++ nl
          ++ u "..." ++ nl
          ++ u "# check what is updated in the upstream " ++ nl).
  exists (u "# apply changes to content/ko" ++ nl).
  exists (u "..." ++ nl
          ++ u "# commit and push" ++ nl
          ++ u "..." ++ nl
          ++ u "# make PR to `" ++ r_commit ++ u "`" ++ nl
          ++ u "```" ++ nl ++ nl).
  unfold worked_example. rewrite <- ?app_assoc. reflexivity.
Qed.

(** The header is found in every report. *)
Corollary header_in_every_report (g : globals) :
  exists out,
    report g = Ok out /\ contains out (u "## Proposed Solution") = true.
Proof.
  rewrite render_issue_closed_form. eexists. split; [reflexivity|].
  unfold report_text. apply contains_app.
Qed.

End Report.

(* ================================================================== *)
(** * The substitution of the target path for the source path *)

(** What [str.replace] does, one step at a time: past an occurrence of
    [old] it writes [new]; elsewhere it copies the character. *)
Lemma replace_from_skip (old new : str) (pre s : str) :
  replace_from old new (List.length pre) (pre ++ s)
  = replace_from old new 0 s.
Proof.
  induction pre as [|c pre IH]; simpl; [reflexivity | apply IH].
Qed.

Lemma replace_occurrence (old new s : str) :
  old <> [] ->
  replace (old ++ s) old new = new ++ replace s old new.
Proof.
  destruct old as [|x old']; [contradiction|]. intros _.
  unfold replace. change ((x :: old') ++ s) with (x :: (old' ++ s)).
  cbn [replace_from].
  change (x :: old' ++ s) with ((x :: old') ++ s).
  rewrite startswith_app. cbn [List.length pred].
  now rewrite replace_from_skip.
Qed.

Lemma replace_elsewhere (old new : str) (c : N) (s : str) :
  old <> [] ->
  startswith (c :: s) old = false ->
  replace (c :: s) old new = c :: replace s old new.
Proof.
  destruct old as [|x old']; [contradiction|]. intros _ H.
  unfold replace. cbn [replace_from]. now rewrite H.
Qed.

Example replace_source_by_target :
  replace (u "content/en/docs/a.md") en ko = u "content/ko/docs/a.md".
Proof. reflexivity. Qed.

(** C7. The existence check of a line is made on the line's primary path
    with the target path substituted for the source path. The exit status
    of [git cat-file -e] on that path decides what the line does: when it
    is not zero the line is dropped; when it is zero the line is acted
    on (the token D appends the primary path to the deleted list, a token
    starting with R appends the rename, the token M appends the modified
    entry once both diffs are had). Among all existence checks a
    repository could answer, only the one on that path bears on what the
    line does. The edit command of the report shows the first modified
    file's path under the same substitution. *)
Theorem same_substitution_in_check_and_report
    (l_commit r_commit src_lang_path l10n_lang_path : str) :
  (forall subprocess status filepath rest g,
      returncode
        (subprocess
           (cat_file_cmd r_commit
              (replace filepath src_lang_path l10n_lang_path))) <> 0%Z ->
      process_diff_status subprocess (status :: filepath :: rest) l_commit
        r_commit src_lang_path l10n_lang_path g
      = Returns tt g)
  /\ (forall subprocess1 subprocess2 status filepath rest g,
         (forall cmd,
             nth_error cmd 1 <> Some (u "cat-file") ->
             subprocess1 cmd = subprocess2 cmd) ->
         returncode
           (subprocess1
              (cat_file_cmd r_commit
                 (replace filepath src_lang_path l10n_lang_path)))
         = returncode
             (subprocess2
                (cat_file_cmd r_commit
                   (replace filepath src_lang_path l10n_lang_path))) ->
         process_diff_status subprocess1 (status :: filepath :: rest)
           l_commit r_commit src_lang_path l10n_lang_path g
         = process_diff_status subprocess2 (status :: filepath :: rest)
             l_commit r_commit src_lang_path l10n_lang_path g)
  /\ (forall dels rens m ms,
         exists pre post,
           render_issue l_commit r_commit src_lang_path l10n_lang_path
             (Globals dels rens (m :: ms))
           = Ok (pre
                 ++ (u "vi "
                     ++ replace (filepath m) src_lang_path l10n_lang_path
                     ++ nl)
                 ++ post))
  /\ (forall subprocess status filepath rest g,
         returncode
           (subprocess
              (cat_file_cmd r_commit
                 (replace filepath src_lang_path l10n_lang_path))) = 0%Z ->
         (status = u "D" ->
          process_diff_status subprocess (status :: filepath :: rest)
            l_commit r_commit src_lang_path l10n_lang_path g
          = Returns tt (Globals (files_to_be_deleted g ++ [filepath])
                                (files_to_be_renamed g)
                                (files_to_be_modified g)))
         /\ (forall dest rest',
                startswith status (u "R") = true ->
                rest = dest :: rest' ->
                process_diff_status subprocess (status :: filepath :: rest)
                  l_commit r_commit src_lang_path l10n_lang_path g
                = Returns tt (Globals (files_to_be_deleted g)
                                      (files_to_be_renamed g
                                       ++ [Renamed status filepath dest])
                                      (files_to_be_modified g)))
         /\ (forall summary full,
                status = u "M" ->
                returncode
                  (subprocess (shortstat_cmd l_commit r_commit filepath))
                = 0%Z ->
                Py.decode
                  (stdout
                     (subprocess (shortstat_cmd l_commit r_commit filepath)))
                = Some summary ->
                returncode (subprocess (diff_cmd l_commit r_commit filepath))
                = 0%Z ->
                Py.decode
                  (stdout (subprocess (diff_cmd l_commit r_commit filepath)))
                = Some full ->
                process_diff_status subprocess (status :: filepath :: rest)
                  l_commit r_commit src_lang_path l10n_lang_path g
                = Returns tt (Globals (files_to_be_deleted g)
                                      (files_to_be_renamed g)
                                      (files_to_be_modified g
                                       ++ [Modified filepath (strip summary)
                                             (strip full)])))).
Proof.
  split; [|split; [|split]].
  - intros subprocess status filepath rest g Hmissing.
    rewrite process_diff_status_eq. unfold counterpart_status.
    apply Z.eqb_neq in Hmissing. now rewrite Hmissing.
  - intros subprocess1 subprocess2 status filepath rest g Hsame Hcode.
    rewrite !process_diff_status_eq. unfold counterpart_status.
    rewrite Hcode.
    match goal with |- context [(?c =? 0)%Z] => destruct (c =? 0)%Z end;
      [|reflexivity].
    destruct (str_eqb status (u "D")); [reflexivity|].
    destruct (startswith status (u "R")); [reflexivity|].
    destruct (str_eqb status (u "M")); [|reflexivity].
    unfold bind. rewrite !git_diff_eq. cbv zeta.
    rewrite (Hsame (shortstat_cmd l_commit r_commit filepath))
      by (cbn; discriminate).
    match goal with |- context [(returncode ?p =? 0)%Z] =>
      destruct (returncode p =? 0)%Z end; [|reflexivity].
    match goal with |- context [Py.decode ?x] =>
      destruct (Py.decode x) end; [|reflexivity].
    rewrite !git_diff_eq. cbv zeta.
    rewrite (Hsame (diff_cmd l_commit r_commit filepath))
      by (cbn; discriminate).
    reflexivity.
  - intros dels rens m ms.
    rewrite render_issue_closed_form. unfold report_text.
    cbn [files_to_be_modified].
    exists (checklists r_commit (Globals dels rens (m :: ms))
            ++ u "## Proposed Solution" ++ nl ++ nl
            ++ nl ++ nl
            ++ u "Use `git diff` to check what is changed in the upstream. And apply the upstream changes manually "
            ++ nl
            ++ u "to the `" ++ l10n_lang_path ++ u "` of `" ++ r_commit
            ++ u "` branch." ++ nl ++ nl
            ++ u "For example:" ++ nl
            ++ u "```" ++ nl
            ++ u "# checkout `" ++ r_commit ++ u "`" ++ nl
            ++ u "..." ++ nl
            ++ u "# check what is updated in the upstream " ++ nl
            ++ u "git diff " ++ l_commit ++ u " " ++ r_commit ++ u " -- "
            ++ filepath m ++ nl
            ++ u "# apply changes to content/ko" ++ nl).
    exists (u "..." ++ nl
            ++ u "# commit and push" ++ nl
            ++ u "..." ++ nl
            ++ u "# make PR to `" ++ r_commit ++ u "`" ++ nl
            ++ u "```" ++ nl ++ nl
            ++ nl ++ nl ++ u "## Pages to Update" ++ nl).
    unfold worked_example. rewrite <- ?app_assoc. reflexivity.
  - intros subprocess status filepath rest g Hfound.
    apply Z.eqb_eq in Hfound.
    repeat split.
    + intros ->. rewrite process_diff_status_eq. unfold counterpart_status.
      rewrite Hfound. reflexivity.
    + intros dest rest' HR ->.
      rewrite process_diff_status_eq. unfold counterpart_status.
      rewrite Hfound, (startswith_R_not_D _ HR), HR. reflexivity.
    + intros summary full -> Hc1 Hd1 Hc2 Hd2.
      rewrite process_diff_status_eq. unfold counterpart_status.
      rewrite Hfound.
      change (str_eqb (u "M") (u "D")) with false.
      change (startswith (u "M") (u "R")) with false.
      change (str_eqb (u "M") (u "M")) with true.
      cbv iota. unfold bind.
      rewrite git_diff_eq. cbv zeta. rewrite Hc1, Hd1, Z.eqb_refl.
      cbv beta iota.
      rewrite git_diff_eq. cbv zeta. rewrite Hc2, Hd2, Z.eqb_refl.
      reflexivity.
Qed.

(* ================================================================== *)
(** * The statements at work on the sample repositories *)

Example milestone_pass :
  git_diff_name_status milestone_repo older newer en ko initial_globals
  = Returns tt milestone_lists.
Proof. vm_compute. reflexivity. Qed.

(** The report for the sample repository shows the modified page in the
    diff command and its Korean counterpart in the edit command. *)
Example milestone_report :
  exists out,
    main milestone_repo (u "ko") (u "en") older newer initial_globals
    = Returns out milestone_lists
    /\ contains out
         (u "git diff dev-1.15-ko.3 dev-1.15-ko.4 -- content/en/docs/a.md"
          ++ nl) = true
    /\ contains out (u "vi content/ko/docs/a.md" ++ nl) = true
    /\ contains out (u "### 1 files to be deleted " ++ nl) = true.
Proof. eexists. repeat split; vm_compute; reflexivity. Qed.

(** The report over empty lists, in full. *)
Example empty_report :
  render_issue older newer en ko initial_globals
  = Ok (u "# This is a Bug Report" ++ nl
        ++ u "## Problem" ++ nl
        ++ u "Outdated files in the dev-1.15-ko.4 branch." ++ nl
        ++ nl
        ++ u "### 0 files to be modified " ++ nl
        ++ nl
        ++ nl
        ++ u "### 0 files to be renamed  " ++ nl
        ++ nl
        ++ nl
        ++ u "### 0 files to be deleted " ++ nl
        ++ nl
        ++ nl
        ++ u "## Proposed Solution" ++ nl
        ++ nl
        ++ nl
        ++ nl
        ++ u "## Pages to Update" ++ nl).
Proof. vm_compute. reflexivity. Qed.

(** A deleted page without a Korean counterpart is not listed. *)
Example untranslated_page_is_dropped :
  process_diff_status milestone_repo
    [u "D"; u "content/en/docs/untranslated.md"] older newer en ko
    initial_globals
  = Returns tt initial_globals.
Proof. vm_compute. reflexivity. Qed.

(** An empty line in the middle of the listing stops the pass. *)
Example blank_line_raises :
  git_diff_name_status blank_line_repo older newer en ko initial_globals
  = Raises IndexError (Globals [u "content/en/docs/gone.md"] [] []).
Proof. vm_compute. reflexivity. Qed.

(** ** Witnesses *)

Lemma entries_only_for_existing_counterparts_witness :
  counterpart_status milestone_repo newer en ko
    (u "content/en/docs/untranslated.md") <> 0%Z
  /\ process_diff_status milestone_repo
       [u "D"; u "content/en/docs/untranslated.md"] older newer en ko
       initial_globals
     = Returns tt initial_globals.
Proof.
  split; [vm_compute; discriminate|].
  apply (proj1 (entries_only_for_existing_counterparts milestone_repo older
                  newer en ko)).
  vm_compute; discriminate.
Defined.

Lemma status_token_dispatch_witness :
  counterpart_status milestone_repo newer en ko (u "content/en/docs/gone.md")
  = 0%Z
  /\ process_diff_status milestone_repo [u "D"; u "content/en/docs/gone.md"]
       older newer en ko initial_globals
     = Returns tt (Globals [u "content/en/docs/gone.md"] [] []).
Proof.
  split; [reflexivity|].
  apply (proj1 (status_token_dispatch milestone_repo older newer en ko
                  (u "D") (u "content/en/docs/gone.md") [] initial_globals
                  eq_refl)).
  reflexivity.
Defined.

Lemma rename_entry_once_witness :
  startswith (u "R100") (u "R") = true
  /\ process_diff_status milestone_repo
       [u "R100"; u "content/en/docs/old.md"; u "content/en/docs/new.md"]
       older newer en ko initial_globals
     = Returns tt
         (Globals []
            [Renamed (u "R100") (u "content/en/docs/old.md")
               (u "content/en/docs/new.md")]
            []).
Proof.
  split; [reflexivity|].
  rewrite (rename_entry_once milestone_repo older newer en ko
             (u "R100") (u "content/en/docs/old.md")
             (u "content/en/docs/new.md") [] initial_globals eq_refl).
  reflexivity.
Defined.

Lemma no_changes_is_not_an_error_witness :
  returncode (unchanged_repo (name_status_cmd older newer en)) = 0%Z
  /\ bytes_strip (stdout (unchanged_repo (name_status_cmd older newer en)))
     = []
  /\ git_diff_name_status unchanged_repo older newer en ko initial_globals
     = Returns tt (Globals [] [] []).
Proof.
  split; [reflexivity|]. split; [reflexivity|].
  apply (no_changes_is_not_an_error unchanged_repo older newer en ko);
    reflexivity.
Defined.


Lemma same_substitution_in_check_and_report_witness :
  returncode
    (milestone_repo
       (cat_file_cmd newer
          (replace (u "content/en/docs/untranslated.md") en ko))) <> 0%Z
  /\ process_diff_status milestone_repo
       [u "D"; u "content/en/docs/untranslated.md"] older newer en ko
       initial_globals
     = Returns tt initial_globals.
Proof.
  split; [vm_compute; discriminate|].
  apply (proj1 (same_substitution_in_check_and_report older newer en ko)).
  vm_compute; discriminate.
Defined.

Lemma short_lines_and_spaced_paths_witness :
  startswith (u "R100") (u "R") = true
  /\ process_diff_status milestone_repo
       [u "R100"; u "content/en/docs/old.md"] older newer en ko
       initial_globals
     = Raises IndexError initial_globals.
Proof.
  split; [reflexivity|].
  rewrite (proj1 (proj2 (short_lines_and_spaced_paths milestone_repo older
                           newer en ko))
             (u "R100") (u "content/en/docs/old.md") initial_globals eq_refl).
  reflexivity.
Defined.

Lemma second_pass_doubles_the_lists_witness :
  git_diff_name_status milestone_repo older newer en ko initial_globals
  = Returns tt milestone_lists
  /\ git_diff_name_status milestone_repo older newer en ko milestone_lists
     = Returns tt (gapp milestone_lists milestone_lists).
Proof.
  split; [exact milestone_pass|].
  apply (proj2 (second_pass_doubles_the_lists milestone_repo older newer en
                  ko) milestone_lists milestone_pass).
Defined.

(** ** Counterexamples *)

(** C1 as stated fails: with an empty modified list the report still
    carries the words "Proposed Solution". *)
Lemma proposed_solution_header_without_modified_files :
  files_to_be_modified initial_globals = []
  /\ exists out,
       render_issue older newer en ko initial_globals = Ok out
       /\ contains out (u "Proposed Solution") = true.
Proof.
  split; [reflexivity|]. eexists. split; vm_compute; reflexivity.
Qed.


(** C9 as stated fails: a line of two tokens whose status token starts
    with R is passed over without an error when the localized counterpart
    of its path does not exist. *)
Lemma short_rename_line_without_counterpart_is_ignored :
  (List.length [u "R100"; u "content/en/docs/untranslated.md"] < 3)%nat
  /\ startswith (u "R100") (u "R") = true
  /\ process_diff_status milestone_repo
       [u "R100"; u "content/en/docs/untranslated.md"] older newer en ko
       initial_globals
     = Returns tt initial_globals
  /\ (forall g,
         process_diff_status milestone_repo
           [u "R100"; u "content/en/docs/untranslated.md"] older newer en ko
           initial_globals
         <> Raises IndexError g).
Proof.
  assert (E : process_diff_status milestone_repo
                [u "R100"; u "content/en/docs/untranslated.md"] older newer
                en ko initial_globals
              = Returns tt initial_globals)
    by (vm_compute; reflexivity).
  split; [simpl; lia|]. split; [reflexivity|]. split; [exact E|].
  intros g. rewrite E. discriminate.
Qed.

(* ================================================================== *)
(** * More on the text primitives *)

Section Tokens.

Local Open Scope N_scope.

Lemma islinebreak_isspace (c : N) : islinebreak c = true -> isspace c = true.
Proof.
  unfold islinebreak, isspace. intros H.
  repeat match type of H with
         | (_ || _)%bool = true => apply orb_true_iff in H as [H|H]
         end;
    repeat match type of H with
           | (_ && _)%bool = true => apply andb_true_iff in H as [? H]
           end;
    repeat match goal with
           | K : (_ <=? _) = true |- _ => apply N.leb_le in K
           | K : (_ =? _) = true |- _ => apply N.eqb_eq in K
           end.
  - replace (9 <=? c) with true by (symmetry; apply N.leb_le; lia).
    replace (c <=? 13) with true by (symmetry; apply N.leb_le; lia).
    reflexivity.
  - replace (28 <=? c) with true by (symmetry; apply N.leb_le; lia).
    replace (c <=? 32) with true by (symmetry; apply N.leb_le; lia).
    rewrite orb_true_r. reflexivity.
  - subst c. reflexivity.
  - subst c. reflexivity.
  - subst c. reflexivity.
Qed.

Lemma is_token_snoc (cur : str) (c : N) :
  cur = [] \/ is_token cur = true ->
  isspace c = false ->
  is_token (cur ++ [c]) = true.
Proof.
  intros Hcur Hc. unfold is_token. rewrite forallb_app. simpl.
  rewrite Hc. simpl. rewrite andb_true_r.
  apply andb_true_iff. split.
  - rewrite length_app. simpl. destruct (List.length cur); reflexivity.
  - destruct Hcur as [-> | H]; [reflexivity|].
    unfold is_token in H. now apply andb_true_iff in H.
Qed.

Lemma split_from_tokens (s cur : str) :
  cur = [] \/ is_token cur = true ->
  Forall (fun t => is_token t = true) (split_from cur s).
Proof.
  revert cur. induction s as [|c s IH]; intros cur Hcur; simpl.
  - destruct cur; [constructor|].
    destruct Hcur as [H|H]; [discriminate|]. now repeat constructor.
  - destruct (isspace c) eqn:Hc.
    + destruct cur as [|x cur'].
      * apply IH. now left.
      * destruct Hcur as [H|H]; [discriminate|].
        constructor; [assumption|]. apply IH. now left.
    + apply IH. right. now apply is_token_snoc.
Qed.

Lemma is_token_no_linebreak (t : str) :
  is_token t = true -> no_linebreak t = true.
Proof.
  intros H. apply is_token_inv in H as [_ H]. unfold no_linebreak.
  rewrite forallb_forall in *. intros c Hc. specialize (H c Hc).
  apply negb_true_iff in H. apply negb_true_iff.
  destruct (islinebreak c) eqn:E; [|reflexivity].
  apply islinebreak_isspace in E. congruence.
Qed.

Lemma split_single_token (t : str) : is_token t = true -> split t = [t].
Proof.
  intros H. apply is_token_inv in H as [Hne Hns].
  unfold split. rewrite <- (app_nil_r t) at 1.
  rewrite split_from_token by assumption. simpl.
  destruct t; [contradiction|reflexivity].
Qed.

Lemma split_join (w : N) (toks : list str) :
  isspace w = true ->
  Forall (fun t => is_token t = true) toks ->
  split (join [w] toks) = toks.
Proof.
  intros Hw Htoks. induction Htoks as [|t toks Ht Htoks IH]; [reflexivity|].
  simpl. destruct toks as [|t' toks'].
  - now apply split_single_token.
  - change ([w] ++ join [w] (t' :: toks')) with (w :: join [w] (t' :: toks')).
    rewrite split_first_token by assumption. now rewrite IH.
Qed.

Lemma splitlines_from_line (cur l rest : str) :
  no_linebreak l = true ->
  splitlines_from cur (l ++ rest) = splitlines_from (cur ++ l) rest.
Proof.
  revert cur. induction l as [|c l IH]; intros cur H; simpl.
  - now rewrite app_nil_r.
  - unfold no_linebreak in H. simpl in H.
    apply andb_true_iff in H as [Hc Hl]. apply negb_true_iff in Hc.
    rewrite Hc, IH by assumption. now rewrite <- app_assoc.
Qed.

Lemma splitlines_from_newline (cur rest : str) :
  splitlines_from cur (10 :: rest) = cur :: splitlines rest.
Proof. simpl. destruct rest; reflexivity. Qed.

Lemma splitlines_join (lines : list str) :
  Forall (fun l => no_linebreak l = true) lines ->
  last lines [10] <> [] ->
  splitlines (join nl lines) = lines.
Proof.
  intros Hlines. induction Hlines as [|l lines Hl Hlines IH]; intros Hlast.
  - reflexivity.
  - simpl join. destruct lines as [|l' lines'].
    + simpl in Hlast. unfold splitlines. rewrite <- (app_nil_r l) at 1.
      rewrite splitlines_from_line by assumption. simpl.
      destruct l; [contradiction|reflexivity].
    + unfold splitlines at 1. rewrite splitlines_from_line by assumption.
      change (nl ++ join nl (l' :: lines'))
        with (10 :: join nl (l' :: lines')).
      rewrite splitlines_from_newline. simpl app. f_equal.
      apply IH. exact Hlast.
Qed.

Lemma join_tokens_nonempty (w : N) (toks : list str) :
  toks <> [] ->
  Forall (fun t => is_token t = true) toks ->
  join [w] toks <> [].
Proof.
  intros Hne Htoks. destruct Htoks as [|t toks Ht Htoks]; [contradiction|].
  apply is_token_inv in Ht as [Htne _]. simpl.
  destruct toks; [assumption|]. destruct t; [contradiction|discriminate].
Qed.

Lemma join_tokens_no_linebreak (w : N) (toks : list str) :
  islinebreak w = false ->
  Forall (fun t => is_token t = true) toks ->
  no_linebreak (join [w] toks) = true.
Proof.
  intros Hw Htoks. induction Htoks as [|t toks Ht Htoks IH]; [reflexivity|].
  destruct toks as [|t' toks'].
  - now apply is_token_no_linebreak.
  - change (join [w] (t :: t' :: toks'))
      with (t ++ w :: join [w] (t' :: toks')).
    unfold no_linebreak. rewrite forallb_app. cbn [forallb]. rewrite Hw.
    fold (no_linebreak t). fold (no_linebreak (join [w] (t' :: toks'))).
    rewrite IH, (is_token_no_linebreak _ Ht). reflexivity.
Qed.

End Tokens.

Lemma split_gives_tokens_aux (s : str) :
  Forall (fun t => is_token t = true) (split s).
Proof. apply split_from_tokens. now left. Qed.

(** X1. Every token [str.split] returns is non-empty and free of
    whitespace, whatever the line. *)
Theorem split_gives_tokens (s : str) :
  Forall (fun t => is_token t = true) (split s).
Proof. apply split_from_tokens. now left. Qed.

Lemma splitlines_from_no_linebreak (n : nat) :
  forall s cur,
    (List.length s <= n)%nat ->
    no_linebreak cur = true ->
    Forall (fun l => no_linebreak l = true) (splitlines_from cur s).
Proof.
  induction n as [|n IH]; intros s cur Hlen Hcur.
  - destruct s; [|simpl in Hlen; lia]. simpl.
    destruct cur; repeat constructor. assumption.
  - destruct s as [|c t]; simpl.
    + destruct cur; repeat constructor. assumption.
    + simpl in Hlen. destruct (islinebreak c) eqn:Hc.
      * constructor; [assumption|].
        destruct t as [|c' t'].
        -- apply IH; [simpl; lia | reflexivity].
        -- destruct ((c =? 13)%N && (c' =? 10)%N).
           ++ apply IH; [simpl in Hlen; lia | reflexivity].
           ++ apply IH; [lia | reflexivity].
      * apply IH; [lia|]. unfold no_linebreak in *.
        rewrite forallb_app, Hcur. simpl. now rewrite Hc.
Qed.

(** X2. No line [str.splitlines] returns contains a line boundary. *)
Theorem splitlines_gives_lines (s : str) :
  Forall (fun l => no_linebreak l = true) (splitlines s).
Proof.
  apply splitlines_from_no_linebreak with (n := List.length s);
    [lia | reflexivity].
Qed.

Lemma last_nonempty (lines : list str) :
  Forall (fun l => l <> []) lines -> last lines [10%N] <> [].
Proof.
  induction 1 as [|l lines Hl Hlines IH]; [discriminate|].
  simpl. destruct lines; assumption.
Qed.

(** X3. A listing is read back field by field: when every row is a
    non-empty list of tokens, the fields of a row are joined by one
    whitespace character that is no line boundary (a tab, a space) and the
    rows are joined by newlines, then cutting the text into lines and the
    lines into tokens gives the rows back. *)
Theorem listing_round_trip (w : N) (rows : list (list str)) :
  isspace w = true ->
  islinebreak w = false ->
  Forall (fun row => row <> [] /\ Forall (fun t => is_token t = true) row)
         rows ->
  map split (splitlines (join nl (map (join [w]) rows))) = rows.
Proof.
  intros Hw Hnl Hrows.
  rewrite splitlines_join.
  - rewrite map_map. rewrite <- (map_id rows) at 2.
    apply map_ext_in. intros row Hin.
    rewrite Forall_forall in Hrows. destruct (Hrows row Hin) as [_ Htoks].
    now apply split_join.
  - rewrite Forall_forall in *. intros l Hin.
    apply in_map_iff in Hin as (row & <- & Hin).
    destruct (Hrows row Hin) as [_ Htoks].
    now apply join_tokens_no_linebreak.
  - apply last_nonempty. rewrite Forall_forall in *. intros l Hin.
    apply in_map_iff in Hin as (row & <- & Hin).
    destruct (Hrows row Hin) as [Hne Htoks].
    now apply join_tokens_nonempty.
Qed.

(** ** Substitution *)

Lemma contains_cons_false (c : N) (s old : str) :
  contains (c :: s) old = false ->
  startswith (c :: s) old = false /\ contains s old = false.
Proof.
  rewrite contains_unfold. intros H. now apply orb_false_iff in H.
Qed.

(** X4. A text in which the old string does not occur is left as it is
    by [str.replace]. *)
Theorem replace_absent (s old new : str) :
  contains s old = false -> replace s old new = s.
Proof.
  destruct old as [|x old'].
  { destruct s; discriminate. }
  induction s as [|c s IH]; intros H; [reflexivity|].
  apply contains_cons_false in H as [Hstart Hrest].
  rewrite replace_elsewhere by (assumption || discriminate).
  now rewrite IH.
Qed.

(** X5. The localized counterpart of a path under the source path: when
    the source path does not occur again in what follows it, replacing
    the source path by the target path in [source ++ rest] gives
    [target ++ rest]. *)
Theorem replace_leading_occurrence (old new rest : str) :
  contains rest old = false ->
  replace (old ++ rest) old new = new ++ rest.
Proof.
  intros H.
  assert (Hne : old <> []) by (intros ->; destruct rest; discriminate).
  rewrite replace_occurrence by assumption.
  f_equal. destruct old as [|x old']; [contradiction|].
  clear Hne. induction rest as [|c s IH]; [reflexivity|].
  apply contains_cons_false in H as [Hstart Hrest].
  rewrite replace_elsewhere by (assumption || discriminate).
  now rewrite IH.
Qed.

Lemma startswith_inv (p s : str) :
  startswith s p = true -> exists t, s = p ++ t.
Proof.
  revert s. induction p as [|x p IH]; intros s H.
  - now exists s.
  - destruct s as [|c s]; [discriminate|]. simpl in H.
    apply andb_true_iff in H as [Hc Hs]. apply N.eqb_eq in Hc. subst c.
    destruct (IH s Hs) as [t ->]. now exists t.
Qed.

Lemma replace_empty_nil (s : str) : replace_empty [] s = s.
Proof. induction s as [|c s IH]; simpl; [reflexivity | now rewrite IH]. Qed.

Lemma replace_same_bounded (old : str) (n : nat) :
  forall s, (List.length s <= n)%nat -> replace s old old = s.
Proof.
  destruct old as [|x old'].
  { intros s _. apply replace_empty_nil. }
  induction n as [|n IH]; intros s Hlen.
  - destruct s; [reflexivity | simpl in Hlen; lia].
  - destruct s as [|c s]; [reflexivity|].
    destruct (startswith (c :: s) (x :: old')) eqn:Hstart.
    + destruct (startswith_inv _ _ Hstart) as [t Ht]. rewrite Ht.
      rewrite replace_occurrence by discriminate.
      rewrite IH; [reflexivity|].
      rewrite Ht, length_app in Hlen. simpl in Hlen. lia.
    + rewrite replace_elsewhere by (assumption || discriminate).
      rewrite IH; [reflexivity | simpl in Hlen; lia].
Qed.

(** X6. Replacing a string by itself changes nothing: when the source
    and the target path are the same, the path checked for existence is
    the line's primary path itself. *)
Theorem replace_same (s old : str) : replace s old old = s.
Proof. now apply replace_same_bounded with (n := List.length s). Qed.

(** ** Decoding and trimming *)

(** X7. Output made of ASCII octets only is decoded octet by octet. *)
Theorem decode_ascii (bs : bytes) :
  Forall (fun x => (Byte.to_N x < 128)%N) bs ->
  Py.decode bs = Some (map Byte.to_N bs).
Proof.
  induction 1 as [|x bs Hx Hbs IH]; [reflexivity|].
  simpl. apply N.ltb_lt in Hx. rewrite Hx, IH. reflexivity.
Qed.

Lemma lstrip_with_head {A} (sp : A -> bool) (s : list A) (c : A)
    (t : list A) :
  lstrip_with sp s = c :: t -> sp c = false.
Proof.
  induction s as [|x s IH]; simpl; [discriminate|].
  destruct (sp x) eqn:E; [assumption|]. now intros [= <- _].
Qed.

Lemma lstrip_with_snoc {A} (sp : A -> bool) (l : list A) (c : A) :
  sp c = false -> lstrip_with sp (l ++ [c]) = lstrip_with sp l ++ [c].
Proof.
  intros Hc. induction l as [|x l IH]; simpl.
  - now rewrite Hc.
  - destruct (sp x); [assumption | reflexivity].
Qed.

Lemma strip_with_last {A} (sp : A -> bool) (s t : list A) (c : A) :
  strip_with sp s = t ++ [c] -> sp c = false.
Proof.
  unfold strip_with, rstrip_with. intros H.
  apply (f_equal (@rev A)) in H. rewrite rev_involutive, rev_app_distr in H.
  simpl in H. now apply lstrip_with_head in H.
Qed.

Lemma strip_with_head {A} (sp : A -> bool) (s t : list A) (c : A) :
  strip_with sp s = c :: t -> sp c = false.
Proof.
  unfold strip_with, rstrip_with.
  destruct (lstrip_with sp s) as [|c0 x] eqn:E; [discriminate|].
  apply lstrip_with_head in E. simpl rev.
  rewrite lstrip_with_snoc by assumption. rewrite rev_app_distr. simpl.
  now intros [= <- _].
Qed.

Lemma strip_trimmed (s : str) : trimmed (strip s).
Proof.
  split.
  - intros c t H. now apply strip_with_head in H.
  - intros t c H. now apply strip_with_last in H.
Qed.

Lemma lstrip_with_fixed {A} (sp : A -> bool) (s : list A) :
  (forall c t, s = c :: t -> sp c = false) -> lstrip_with sp s = s.
Proof.
  destruct s as [|c t]; [reflexivity|]. intros H. simpl.
  now rewrite (H c t eq_refl).
Qed.

Lemma strip_idempotent (s : str) : strip (strip s) = strip s.
Proof.
  destruct (strip_trimmed s) as [Hhead Hlast].
  unfold strip at 1, strip_with, rstrip_with.
  rewrite (@lstrip_with_fixed _ isspace (strip s) Hhead).
  rewrite lstrip_with_fixed; [apply rev_involutive|].
  intros c t H. apply (Hlast (rev t) c).
  rewrite <- (rev_involutive (strip s)), H. reflexivity.
Qed.

(* ================================================================== *)
(** * More on the pass *)

Section Pass.

Local Open Scope py_scope.

Variable subprocess : list str -> CompletedProcess.
Variables l_commit r_commit src_lang_path l10n_lang_path : str.

Local Abbreviation status_of filepath :=
  (counterpart_status subprocess r_commit src_lang_path l10n_lang_path filepath).
Local Abbreviation process diff_status :=
  (process_diff_status subprocess diff_status l_commit r_commit src_lang_path
     l10n_lang_path).
Local Abbreviation pass :=
  (git_diff_name_status subprocess l_commit r_commit src_lang_path
     l10n_lang_path).
Local Abbreviation loop lines :=
  (process_lines subprocess l_commit r_commit src_lang_path l10n_lang_path
     lines).
Local Abbreviation listed_lines :=
  (listing_lines subprocess l_commit r_commit src_lang_path).

(** X8. [git_diff] never touches the three lists. It runs one command,
    the full diff of the path or, with [shortstat], its summary diff.
    When the command exits with status zero and its output decodes, the
    text returned is that output stripped: it neither starts nor ends
    with whitespace, and stripping it again changes nothing. When the
    output does not decode, it raises UnicodeDecodeError. When the
    command exits with another status, it raises CalledProcessError
    carrying that very exit status and that very command. *)
Theorem git_diff_result (filepath : str) (shortstat : bool) (g : globals) :
  let cmd := if shortstat
             then shortstat_cmd l_commit r_commit filepath
             else diff_cmd l_commit r_commit filepath in
  match git_diff subprocess filepath l_commit r_commit shortstat g with
  | Returns s g' =>
      g' = g
      /\ returncode (subprocess cmd) = 0%Z
      /\ (exists decoded,
             Py.decode (stdout (subprocess cmd)) = Some decoded
             /\ s = strip decoded)
      /\ trimmed s
      /\ strip s = s
  | Raises e g' =>
      g' = g
      /\ ((returncode (subprocess cmd) = 0%Z
           /\ Py.decode (stdout (subprocess cmd)) = None
           /\ e = UnicodeDecodeError)
          \/ (returncode (subprocess cmd) <> 0%Z
              /\ e = CalledProcessError (returncode (subprocess cmd)) cmd))
  end.
Proof.
  cbv zeta. rewrite git_diff_eq. cbv zeta.
  match goal with |- context [(returncode ?p =? 0)%Z] =>
    destruct (returncode p =? 0)%Z eqn:Hcode end.
  - apply Z.eqb_eq in Hcode.
    match goal with |- context [Py.decode ?x] =>
      destruct (Py.decode x) as [decoded|] eqn:Hdec end.
    + split; [reflexivity|]. split; [exact Hcode|].
      split; [exists decoded; now split|].
      split; [apply strip_trimmed | apply strip_idempotent].
    + split; [reflexivity|]. left. now repeat split.
  - apply Z.eqb_neq in Hcode.
    split; [reflexivity|]. right. now split.
Qed.

(** Everything one line can do. *)
Lemma process_diff_status_cases (diff_status : list str) (g : globals) :
  (exists e,
      process diff_status g = Raises e g
      /\ ((e = IndexError /\ (List.length diff_status < 3)%nat)
          \/ exists filepath rest,
               diff_status = u "M" :: filepath :: rest
               /\ (e = UnicodeDecodeError
                   \/ exists c,
                        c <> 0%Z
                        /\ (e = CalledProcessError c
                                  (shortstat_cmd l_commit r_commit filepath)
                            \/ e = CalledProcessError c
                                     (diff_cmd l_commit r_commit filepath)))))
  \/ process diff_status g = Returns tt g
  \/ (exists filepath rest,
         diff_status = u "D" :: filepath :: rest
         /\ status_of filepath = 0%Z
         /\ process diff_status g
            = Returns tt (Globals (files_to_be_deleted g ++ [filepath])
                                  (files_to_be_renamed g)
                                  (files_to_be_modified g)))
  \/ (exists status filepath dest rest,
         diff_status = status :: filepath :: dest :: rest
         /\ startswith status (u "R") = true
         /\ status_of filepath = 0%Z
         /\ process diff_status g
            = Returns tt (Globals (files_to_be_deleted g)
                                  (files_to_be_renamed g
                                   ++ [Renamed status filepath dest])
                                  (files_to_be_modified g)))
  \/ (exists filepath rest summary full,
         diff_status = u "M" :: filepath :: rest
         /\ status_of filepath = 0%Z
         /\ process diff_status g
            = Returns tt (Globals (files_to_be_deleted g)
                                  (files_to_be_renamed g)
                                  (files_to_be_modified g
                                   ++ [Modified filepath (strip summary)
                                         (strip full)]))).
Proof.
  destruct diff_status as [|status [|filepath rest]].
  { left. exists IndexError. split; [reflexivity|]. left. split; simpl; auto. }
  { left. exists IndexError. split; [reflexivity|]. left. split; simpl; auto. }
  rewrite process_diff_status_eq.
  destruct (status_of filepath =? 0)%Z eqn:Hfound; [|right; left; reflexivity].
  apply Z.eqb_eq in Hfound.
  destruct (str_eqb status (u "D")) eqn:HD.
  { apply str_eqb_eq in HD. subst status.
    right. right. left. exists filepath, rest. repeat split; trivial. }
  destruct (startswith status (u "R")) eqn:HR.
  { destruct rest as [|dest rest'].
    - left. exists IndexError. split; [reflexivity|]. left.
      split; simpl; auto.
    - right. right. right. left. exists status, filepath, dest, rest'.
      repeat split; trivial. }
  destruct (str_eqb status (u "M")) eqn:HM; [|right; left; reflexivity].
  apply str_eqb_eq in HM. subst status.
  unfold bind. rewrite git_diff_eq. cbv zeta.
  destruct (returncode (subprocess (shortstat_cmd l_commit r_commit filepath))
            =? 0)%Z eqn:Hc1.
  2:{ left. eexists. split; [reflexivity|]. right. exists filepath, rest.
      split; [reflexivity|]. right. eexists. split; [|left; reflexivity].
      now apply Z.eqb_neq. }
  destruct (Py.decode
              (stdout (subprocess (shortstat_cmd l_commit r_commit filepath))))
    as [summary|].
  2:{ left. eexists. split; [reflexivity|]. right. exists filepath, rest.
      split; [reflexivity|]. now left. }
  rewrite git_diff_eq. cbv zeta.
  destruct (returncode (subprocess (diff_cmd l_commit r_commit filepath))
            =? 0)%Z eqn:Hc2.
  2:{ left. eexists. split; [reflexivity|]. right. exists filepath, rest.
      split; [reflexivity|]. right. eexists. split; [|right; reflexivity].
      now apply Z.eqb_neq. }
  destruct (Py.decode
              (stdout (subprocess (diff_cmd l_commit r_commit filepath))))
    as [full|].
  2:{ left. eexists. split; [reflexivity|]. right. exists filepath, rest.
      split; [reflexivity|]. now left. }
  right. right. right. right. exists filepath, rest, summary, full.
  repeat split; trivial.
Qed.

Lemma raising_line_kinds (diff_status : list str) (g g' : globals) (e : exn) :
  process diff_status g = Raises e g' ->
  (e = IndexError /\ (List.length diff_status < 3)%nat)
  \/ exists filepath rest,
       diff_status = u "M" :: filepath :: rest
       /\ (e = UnicodeDecodeError
           \/ exists c,
                c <> 0%Z
                /\ (e = CalledProcessError c
                          (shortstat_cmd l_commit r_commit filepath)
                    \/ e = CalledProcessError c
                             (diff_cmd l_commit r_commit filepath))).
Proof.
  intros H.
  destruct (process_diff_status_cases diff_status g)
    as [(e0 & He & Hkind)
       | [Hret
         | [(fp & rest & _ & _ & Hret)
           | [(st & fp & dest & rest & _ & _ & _ & Hret)
             | (fp & rest & s1 & s2 & _ & _ & Hret)]]]];
    rewrite H in *; try discriminate.
  now injection He as -> _.
Qed.

(** X9. A line that raises appends nothing: the lists are as they were
    before the line. The exception is IndexError, and then the line has
    fewer than three tokens, or it comes from one of the two diffs of a
    line with status token M: UnicodeDecodeError, or CalledProcessError
    with the diff command and its non-zero exit status. A failed
    existence check never raises. *)
Theorem raising_line_appends_nothing
    (diff_status : list str) (g g' : globals) (e : exn) :
  process diff_status g = Raises e g' ->
  g' = g
  /\ ((e = IndexError /\ (List.length diff_status < 3)%nat)
      \/ exists filepath rest,
           diff_status = u "M" :: filepath :: rest
           /\ (e = UnicodeDecodeError
               \/ exists c,
                    c <> 0%Z
                    /\ (e = CalledProcessError c
                              (shortstat_cmd l_commit r_commit filepath)
                        \/ e = CalledProcessError c
                                 (diff_cmd l_commit r_commit filepath)))).
Proof.
  intros H.
  destruct (process_diff_status_cases diff_status g)
    as [(e0 & He & Hkind)
       | [Hret
         | [(fp & rest & _ & _ & Hret)
           | [(st & fp & dest & rest & _ & _ & _ & Hret)
             | (fp & rest & s1 & s2 & _ & _ & Hret)]]]];
    rewrite H in *; try discriminate.
  injection He as -> ->. now split.
Qed.

(** ** The loop over the lines *)

Lemma for_each_app {A} (xs ys : list A) (body : A -> M unit) (g : globals) :
  for_each (xs ++ ys) body g
  = match for_each xs body g with
    | Returns _ g' => for_each ys body g'
    | Raises e g' => Raises e g'
    end.
Proof.
  revert g. induction xs as [|x xs IH]; intros g; [reflexivity|].
  simpl. unfold bind. destruct (body x g) as [[] g'|e g']; [apply IH|].
  reflexivity.
Qed.

Lemma appends_only_loop (lines : list str) : appends_only (loop lines).
Proof.
  unfold process_lines. apply appends_only_for_each. intros line.
  apply appends_only_process_diff_status.
Qed.

(** X10. The lists keep the order of the listing. When the lines [xs]
    are processed from empty lists without an error and leave the lists
    [g1], processing [xs] followed by [ys] from empty lists ends as
    processing [ys] alone from empty lists does (returning, or raising the
    same exception), and each of the three lists then holds the entries
    of [g1] followed by the entries [ys] alone gives. In particular the
    entry of a further line with token D, or with a token starting with
    R, whose counterpart exists, is put behind every entry of [g1]. *)
Theorem entries_keep_listing_order (xs : list str) (g1 : globals) :
  loop xs initial_globals = Returns tt g1 ->
  (forall ys,
      loop (xs ++ ys) initial_globals = shift g1 (loop ys initial_globals))
  /\ (forall line filepath rest,
         split line = u "D" :: filepath :: rest ->
         status_of filepath = 0%Z ->
         loop (xs ++ [line]) initial_globals
         = Returns tt (Globals (files_to_be_deleted g1 ++ [filepath])
                               (files_to_be_renamed g1)
                               (files_to_be_modified g1)))
  /\ (forall line status old new rest,
         split line = status :: old :: new :: rest ->
         startswith status (u "R") = true ->
         status_of old = 0%Z ->
         loop (xs ++ [line]) initial_globals
         = Returns tt (Globals (files_to_be_deleted g1)
                               (files_to_be_renamed g1
                                ++ [Renamed status old new])
                               (files_to_be_modified g1))).
Proof.
  intros Hxs.
  assert (Hstep : forall line,
             loop (xs ++ [line]) initial_globals
             = match process (split line) g1 with
               | Returns _ g' => Returns tt g'
               | Raises e g' => Raises e g'
               end).
  { intros line. unfold process_lines. rewrite for_each_app.
    fold (loop xs initial_globals). rewrite Hxs. simpl. unfold bind.
    destruct (process (split line) g1) as [[] g'|e g']; reflexivity. }
  split; [|split].
  - intros ys. unfold process_lines. rewrite for_each_app.
    fold (loop xs initial_globals). rewrite Hxs.
    apply (appends_only_loop ys g1).
  - intros line filepath rest Hsplit Hfound. apply Z.eqb_eq in Hfound.
    rewrite Hstep, Hsplit, process_diff_status_eq, Hfound. reflexivity.
  - intros line status old new rest Hsplit HR Hfound.
    apply Z.eqb_eq in Hfound.
    rewrite Hstep, Hsplit, process_diff_status_eq, Hfound,
      (startswith_R_not_D _ HR), HR.
    reflexivity.
Qed.

Lemma pass_eq (g : globals) :
  pass g
  = let p := subprocess (name_status_cmd l_commit r_commit src_lang_path) in
    if (returncode p =? 0)%Z
    then match Py.decode (bytes_strip (stdout p)) with
         | Some decoded => loop (splitlines decoded) g
         | None => Raises UnicodeDecodeError g
         end
    else Raises (CalledProcessError (returncode p)
                   (name_status_cmd l_commit r_commit src_lang_path)) g.
Proof.
  unfold git_diff_name_status, check_output, decode_utf8, bind.
  fold (name_status_cmd l_commit r_commit src_lang_path). cbv zeta.
  destruct (returncode
              (subprocess (name_status_cmd l_commit r_commit src_lang_path))
            =? 0)%Z; [|reflexivity].
  unfold ret at 1.
  destruct (Py.decode
              (bytes_strip
                 (stdout
                    (subprocess
                       (name_status_cmd l_commit r_commit src_lang_path)))));
    reflexivity.
Qed.

Lemma lists_after_pass (g : globals) :
  lists_after (pass g) = lists_after (loop listed_lines g).
Proof.
  rewrite pass_eq. unfold listing_lines. cbv zeta.
  destruct (returncode
              (subprocess (name_status_cmd l_commit r_commit src_lang_path))
            =? 0)%Z; [|reflexivity].
  destruct (Py.decode
              (bytes_strip
                 (stdout
                    (subprocess
                       (name_status_cmd l_commit r_commit src_lang_path)))));
    reflexivity.
Qed.

(** X11. The pass stops at the first line that raises: the entries of
    the lines before it stay in the lists, the line itself adds nothing
    and the lines after it are never processed. *)
Theorem pass_stops_at_first_error
    (decoded : str) (before after : list str) (line : str)
    (g g1 g2 : globals) (e : exn) :
  returncode (subprocess (name_status_cmd l_commit r_commit src_lang_path))
  = 0%Z ->
  Py.decode
    (bytes_strip
       (stdout (subprocess (name_status_cmd l_commit r_commit src_lang_path))))
  = Some decoded ->
  splitlines decoded = before ++ line :: after ->
  loop before g = Returns tt g1 ->
  process (split line) g1 = Raises e g2 ->
  pass g = Raises e g1.
Proof.
  intros Hcode Hdec Hlines Hbefore Hline.
  assert (Hsame : g2 = g1).
  { destruct (process_diff_status_cases (split line) g1)
      as [(e0 & He & _)
         | [Hret
           | [(fp & rest & _ & _ & Hret)
             | [(st & fp & dest & rest & _ & _ & _ & Hret)
               | (fp & rest & s1 & s2 & _ & _ & Hret)]]]];
      rewrite Hline in *; try discriminate.
    now injection He. }
  subst g2.
  rewrite pass_eq. cbv zeta. rewrite Hcode, Hdec, Hlines. simpl.
  unfold process_lines. rewrite for_each_app.
  fold (loop before g). rewrite Hbefore. simpl. unfold bind.
  now rewrite Hline.
Qed.

Lemma entries_after_line (diff_status : list str) (g : globals) :
  (entries g <= entries (lists_after (process diff_status g))
   <= entries g + 1)%nat.
Proof.
  destruct (process_diff_status_cases diff_status g)
    as [(e0 & -> & _)
       | [->
         | [(fp & rest & _ & _ & ->)
           | [(st & fp & dest & rest & _ & _ & _ & ->)
             | (fp & rest & s1 & s2 & _ & _ & ->)]]]];
    unfold entries; simpl; rewrite ?length_app; simpl; lia.
Qed.

Lemma entries_after_lines (lines : list str) (g : globals) :
  (entries g <= entries (lists_after (loop lines g))
   <= entries g + List.length lines)%nat.
Proof.
  revert g. induction lines as [|line lines IH]; intros g.
  - simpl. lia.
  - unfold process_lines. simpl. unfold bind.
    pose proof (entries_after_line (split line) g) as Hline.
    destruct (process (split line) g) as [[] g'|e g']; simpl in Hline.
    + specialize (IH g'). unfold process_lines in IH. lia.
    + simpl. lia.
Qed.

(** X12. A pass never removes an entry and appends at most one entry
    per line of the listing. *)
Theorem entries_bounded_by_lines (g : globals) :
  (entries g <= entries (lists_after (pass g))
   <= entries g + List.length listed_lines)%nat.
Proof. rewrite lists_after_pass. apply entries_after_lines. Qed.

(** ** What every entry looks like *)

Lemma entries_invariant
    (Pd : str -> Prop) (Pr : renamed -> Prop) (Pm : modified -> Prop) :
  (forall filepath rest,
      Forall (fun t => is_token t = true) (u "D" :: filepath :: rest) ->
      Pd filepath) ->
  (forall status filepath dest rest,
      Forall (fun t => is_token t = true)
             (status :: filepath :: dest :: rest) ->
      startswith status (u "R") = true ->
      Pr (Renamed status filepath dest)) ->
  (forall filepath rest summary full,
      Forall (fun t => is_token t = true) (u "M" :: filepath :: rest) ->
      Pm (Modified filepath (strip summary) (strip full))) ->
  forall lines g,
    Forall Pd (files_to_be_deleted g) ->
    Forall Pr (files_to_be_renamed g) ->
    Forall Pm (files_to_be_modified g) ->
    Forall Pd (files_to_be_deleted (lists_after (loop lines g)))
    /\ Forall Pr (files_to_be_renamed (lists_after (loop lines g)))
    /\ Forall Pm (files_to_be_modified (lists_after (loop lines g))).
Proof.
  intros Hd Hr Hm lines.
  induction lines as [|line lines IH]; intros g Gd Gr Gm; [now repeat split|].
  unfold process_lines. simpl. unfold bind.
  pose proof (split_gives_tokens_aux line) as Htok.
  destruct (process_diff_status_cases (split line) g)
    as [(e0 & -> & _)
       | [->
         | [(fp & rest & E & _ & ->)
           | [(st & fp & dest & rest & E & HR & _ & ->)
             | (fp & rest & s1 & s2 & E & _ & ->)]]]];
    try (simpl; now repeat split);
    try (apply (IH g); assumption);
    rewrite E in Htok; apply IH; simpl; trivial;
    apply Forall_app; split; trivial; constructor; eauto.
Qed.

(** X13. After a pass started from empty lists, whether it returned or
    raised, every field of every entry is a token: non-empty and free of
    whitespace. No listed path contains a blank. *)
Theorem listed_fields_are_tokens :
  Forall (fun p => is_token p = true)
         (files_to_be_deleted (lists_after (pass initial_globals)))
  /\ Forall (fun r => is_token (diff_status_letter r) = true
                      /\ is_token (src_filepath r) = true
                      /\ is_token (dest_filepath r) = true)
            (files_to_be_renamed (lists_after (pass initial_globals)))
  /\ Forall (fun m => is_token (filepath m) = true)
            (files_to_be_modified (lists_after (pass initial_globals))).
Proof.
  rewrite lists_after_pass. apply entries_invariant.
  - intros filepath rest H. apply Forall_cons_iff in H as [_ H].
    now apply Forall_cons_iff in H as [H _].
  - intros status filepath dest rest H _.
    apply Forall_cons_iff in H as [Hs H].
    apply Forall_cons_iff in H as [Hf H].
    apply Forall_cons_iff in H as [Hd _].
    simpl. now repeat split.
  - intros filepath rest summary full H.
    apply Forall_cons_iff in H as [_ H].
    now apply Forall_cons_iff in H as [H _].
  - constructor.
  - constructor.
  - constructor.
Qed.

(** X14. After a pass started from empty lists, the status token of
    every renamed entry starts with R. *)
Theorem renamed_entries_start_with_R :
  Forall (fun r => startswith (diff_status_letter r) (u "R") = true)
         (files_to_be_renamed (lists_after (pass initial_globals))).
Proof.
  rewrite lists_after_pass.
  apply entries_invariant
    with (Pd := fun _ => True)
         (Pr := fun r => startswith (diff_status_letter r) (u "R") = true)
         (Pm := fun _ => True).
  - intros; exact I.
  - intros status filepath dest rest _ HR. exact HR.
  - intros; exact I.
  - constructor.
  - constructor.
  - constructor.
Qed.

(** X15. After a pass started from empty lists, the summary and the diff
    of every modified entry are trimmed: neither starts or ends with
    whitespace. *)
Theorem modified_texts_are_trimmed :
  Forall (fun m => trimmed (shortstat m) /\ trimmed (diff m))
         (files_to_be_modified (lists_after (pass initial_globals))).
Proof.
  rewrite lists_after_pass.
  apply entries_invariant
    with (Pd := fun _ => True) (Pr := fun _ => True)
         (Pm := fun m => trimmed (shortstat m) /\ trimmed (diff m)).
  - intros; exact I.
  - intros; exact I.
  - intros filepath rest summary full _. split; apply strip_trimmed.
  - constructor.
  - constructor.
  - constructor.
Qed.

(** Where a raising loop raised. *)
Lemma loop_raises (lines : list str) (g g' : globals) (e : exn) :
  loop lines g = Raises e g' ->
  exists line g1, In line lines /\ process (split line) g1 = Raises e g'.
Proof.
  revert g. induction lines as [|line lines IH]; intros g H; [discriminate|].
  unfold process_lines in H. simpl in H. unfold bind in H.
  destruct (process (split line) g) as [[] g1|e1 g1] eqn:E.
  - destruct (IH g1 H) as (line' & g2 & Hin & Hr).
    exists line', g2. split; [now right | assumption].
  - injection H as -> ->. exists line, g. split; [now left | assumption].
Qed.

Lemma pass_exceptions_aux (g g' : globals) (e : exn) :
  pass g = Raises e g' ->
  e = IndexError
  \/ e = UnicodeDecodeError
  \/ exists c cmd,
       c <> 0%Z
       /\ e = CalledProcessError c cmd
       /\ (cmd = name_status_cmd l_commit r_commit src_lang_path
           \/ exists filepath,
                cmd = shortstat_cmd l_commit r_commit filepath
                \/ cmd = diff_cmd l_commit r_commit filepath).
Proof.
  rewrite pass_eq. cbv zeta.
  destruct (returncode
              (subprocess (name_status_cmd l_commit r_commit src_lang_path))
            =? 0)%Z eqn:Hcode.
  2:{ intros [= <- _]. right. right.
      exists (returncode
                (subprocess
                   (name_status_cmd l_commit r_commit src_lang_path))),
             (name_status_cmd l_commit r_commit src_lang_path).
      split; [now apply Z.eqb_neq|]. split; [reflexivity | now left]. }
  destruct (Py.decode
              (bytes_strip
                 (stdout
                    (subprocess
                       (name_status_cmd l_commit r_commit src_lang_path)))))
    as [decoded|].
  2:{ intros [= <- _]. now (right; left). }
  intros H. apply loop_raises in H as (line & g1 & _ & H).
  apply raising_line_kinds in H.
  destruct H as [[-> _] | (fp & rest & _ & [-> | (c & Hc & [-> | ->])])].
  - now left.
  - now (right; left).
  - right. right. exists c, (shortstat_cmd l_commit r_commit fp).
    repeat split; trivial. right. exists fp. now left.
  - right. right. exists c, (diff_cmd l_commit r_commit fp).
    repeat split; trivial. right. exists fp. now right.
Qed.

(** X16. The exceptions of a pass: IndexError, UnicodeDecodeError, or
    CalledProcessError carrying a non-zero exit status and the command
    that failed, which is the name-status diff or the summary diff or
    the full diff of some path. *)
Theorem pass_exceptions (g g' : globals) (e : exn) :
  pass g = Raises e g' ->
  e = IndexError
  \/ e = UnicodeDecodeError
  \/ exists c cmd,
       c <> 0%Z
       /\ e = CalledProcessError c cmd
       /\ (cmd = name_status_cmd l_commit r_commit src_lang_path
           \/ exists filepath,
                cmd = shortstat_cmd l_commit r_commit filepath
                \/ cmd = diff_cmd l_commit r_commit filepath).
Proof. apply pass_exceptions_aux. Qed.

End Pass.

(* ================================================================== *)
(** * The whole run *)

Section Main.

Variable subprocess : list str -> CompletedProcess.
Variables l10n_lang src_lang l_commit r_commit : str.

Local Abbreviation src_path := (u "content/" ++ src_lang).
Local Abbreviation l10n_path := (u "content/" ++ l10n_lang).
Local Abbreviation run := (main subprocess l10n_lang src_lang l_commit r_commit).
Local Abbreviation pass :=
  (git_diff_name_status subprocess l_commit r_commit src_path l10n_path).

Lemma main_eq (g : globals) :
  run g
  = match pass g with
    | Returns _ g' =>
        Returns (report_text l_commit r_commit src_path l10n_path g' ++ nl) g'
    | Raises e g' => Raises e g'
    end.
Proof.
  unfold main, bind, get. cbv zeta.
  destruct (git_diff_name_status subprocess l_commit r_commit
              (u "content/" ++ src_lang) (u "content/" ++ l10n_lang) g)
    as [[] g'|e g']; [|reflexivity].
  rewrite render_issue_closed_form. reflexivity.
Qed.

(** X17. A run is a pass over the paths [content/<src-lang>] and
    [content/<l10n-lang>] followed by the report: when the pass raises,
    the run raises the same exception and prints nothing; when the pass
    returns, the run prints the report of the lists the pass left,
    followed by a newline, and leaves the lists as the pass left them.
    Rendering the report never fails. *)
Theorem run_is_pass_then_report (g : globals) :
  (forall e g', pass g = Raises e g' -> run g = Raises e g')
  /\ (forall g',
         pass g = Returns tt g' ->
         exists report,
           render_issue l_commit r_commit src_path l10n_path g' = Ok report
           /\ run g = Returns (report ++ nl) g')
  /\ (forall t g', run g <> Raises (TemplateError t) g').
Proof.
  rewrite main_eq. repeat split.
  - intros e g' ->. reflexivity.
  - intros g' ->. eexists. split; [apply render_issue_closed_form|].
    reflexivity.
  - intros t g' H.
    destruct (git_diff_name_status subprocess l_commit r_commit
                (u "content/" ++ src_lang) (u "content/" ++ l10n_lang) g)
      as [[] g1|e g1] eqn:E; [discriminate|].
    injection H as -> _.
    apply pass_exceptions_aux in E.
    destruct E as [E | [E | (c & cmd & _ & E & _)]]; discriminate.
Qed.

(** X18. When the name-status diff fails (an unknown revision, no
    repository), the run raises CalledProcessError with the exit status
    and the command, prints nothing and leaves the lists untouched. *)
Theorem run_fails_with_the_listing (g : globals) :
  returncode (subprocess (name_status_cmd l_commit r_commit src_path))
  <> 0%Z ->
  run g
  = Raises
      (CalledProcessError
         (returncode (subprocess (name_status_cmd l_commit r_commit src_path)))
         (name_status_cmd l_commit r_commit src_path))
      g.
Proof.
  intros H. apply Z.eqb_neq in H.
  rewrite main_eq, pass_eq. cbv zeta. now rewrite H.
Qed.

End Main.

(* ================================================================== *)
(** * More on the report *)

Lemma contains_inv (s sub : str) :
  contains s sub = true -> exists pre post, s = pre ++ sub ++ post.
Proof.
  induction s as [|c s IH]; intros H.
  - destruct sub; [|discriminate]. now exists [], [].
  - rewrite contains_unfold in H. apply orb_true_iff in H as [H|H].
    + apply startswith_inv in H as [t ->]. now exists [], t.
    + destruct (IH H) as (pre & post & ->). now exists (c :: pre), post.
Qed.

Lemma contains_skip (a s sub : str) :
  contains s sub = true -> contains (a ++ s) sub = true.
Proof.
  intros H. apply contains_inv in H as (pre & post & ->).
  rewrite app_assoc. apply contains_app.
Qed.

Lemma contains_keep (s z sub : str) :
  contains s sub = true -> contains (s ++ z) sub = true.
Proof.
  intros H. apply contains_inv in H as (pre & post & ->).
  rewrite <- !app_assoc. apply contains_app.
Qed.

Lemma contains_concat {A} (f : A -> str) (xs : list A) (x : A) :
  In x xs -> contains (List.concat (map f xs)) (f x) = true.
Proof.
  intros H. apply in_split in H as (l1 & l2 & ->).
  rewrite map_app, concat_app. simpl. apply contains_app.
Qed.

Section MoreReport.

Variables l_commit r_commit src_lang_path l10n_lang_path : str.

Local Abbreviation report g :=
  (render_issue l_commit r_commit src_lang_path l10n_lang_path g).

Ltac reach f :=
  repeat lazymatch goal with
         | |- contains (List.concat (map f _) ++ _) _ = true => fail
         | |- contains (_ ++ _) _ = true => apply contains_skip
         end;
  apply contains_keep.

(** X19. Nothing listed is left out of the report: every deleted path,
    every renamed entry and every modified entry has its checklist line in
    the rendered text. *)
Theorem every_entry_is_shown (g : globals) :
  exists out,
    report g = Ok out
    /\ (forall d,
           In d (files_to_be_deleted g) ->
           contains out (u "1. [ ] " ++ d ++ nl) = true)
    /\ (forall x,
           In x (files_to_be_renamed g) ->
           contains out
             (u "1. [ ] " ++ diff_status_letter x ++ u " " ++ src_filepath x
              ++ u " -> " ++ dest_filepath x ++ nl) = true)
    /\ (forall m,
           In m (files_to_be_modified g) ->
           contains out
             (u "1. [ ] " ++ filepath m ++ u " " ++ shortstat m ++ nl)
           = true).
Proof.
  eexists. split; [apply render_issue_closed_form|].
  unfold report_text, checklists. rewrite <- ?app_assoc.
  repeat split.
  - intros d Hin. reach deleted_item.
    apply (contains_concat deleted_item _ _ Hin).
  - intros x Hin. reach renamed_item.
    apply (contains_concat renamed_item _ _ Hin).
  - intros m Hin. reach modified_item.
    apply (contains_concat modified_item _ _ Hin).
Qed.

Lemma modified_items_by_path_and_summary (ms ms' : list modified) :
  map (fun m => (filepath m, shortstat m)) ms
  = map (fun m => (filepath m, shortstat m)) ms' ->
  map modified_item ms = map modified_item ms'
  /\ List.length ms = List.length ms'
  /\ match ms with
     | [] => []
     | m :: _ =>
         worked_example l_commit r_commit src_lang_path l10n_lang_path m
     end
     = match ms' with
       | [] => []
       | m :: _ =>
           worked_example l_commit r_commit src_lang_path l10n_lang_path m
       end.
Proof.
  intros H. repeat split.
  - assert (E : forall xs,
               map modified_item xs
               = map (fun p => u "1. [ ] " ++ fst p ++ u " " ++ snd p ++ nl)
                     (map (fun m => (filepath m, shortstat m)) xs))
      by (intros xs; rewrite map_map; reflexivity).
    now rewrite (E ms), (E ms'), H.
  - apply (f_equal (@List.length _)) in H. now rewrite !length_map in H.
  - destruct ms as [|m ms], ms' as [|m' ms']; try discriminate;
      [reflexivity|].
    simpl in H. injection H as Hpath _ _.
    unfold worked_example. now rewrite Hpath.
Qed.

(** X20. The full diff stored with a modified entry is never shown: two
    states of the lists that agree on the deleted paths, on the renamed
    entries and on the path and summary of every modified entry give the
    same report. *)
Theorem report_ignores_diff (g g' : globals) :
  files_to_be_deleted g = files_to_be_deleted g' ->
  files_to_be_renamed g = files_to_be_renamed g' ->
  map (fun m => (filepath m, shortstat m)) (files_to_be_modified g)
  = map (fun m => (filepath m, shortstat m)) (files_to_be_modified g') ->
  report g = report g'.
Proof.
  intros Hd Hr Hm.
  apply modified_items_by_path_and_summary in Hm as (Hitems & Hlen & Hhead).
  rewrite !render_issue_closed_form. f_equal.
  unfold report_text, checklists.
  now rewrite Hd, Hr, Hitems, Hlen, Hhead.
Qed.

(** X21. With no modified file the report depends on the newer revision
    and the lists only: the older revision, the source path and the
    target path do not show in it. *)
Theorem report_without_modified_files
    (l_commit' src_lang_path' l10n_lang_path' : str) (g : globals) :
  files_to_be_modified g = [] ->
  report g
  = render_issue l_commit' r_commit src_lang_path' l10n_lang_path' g.
Proof.
  intros H. rewrite !render_issue_closed_form. unfold report_text.
  now rewrite H.
Qed.

End MoreReport.

(* ================================================================== *)
(** * Which commands a line runs *)

(** X22. Only a line with status token M runs [git diff]: for any other
    line, two repositories that answer every existence check with the
    same exit status give the same outcome, whatever they answer to
    other commands. *)
Theorem only_modified_lines_run_git_diff
    (subprocess1 subprocess2 : list str -> CompletedProcess)
    (l_commit r_commit src_lang_path l10n_lang_path : str)
    (diff_status : list str) (g : globals) :
  nth_error diff_status 0 <> Some (u "M") ->
  (forall path,
      returncode (subprocess1 (cat_file_cmd r_commit path))
      = returncode (subprocess2 (cat_file_cmd r_commit path))) ->
  process_diff_status subprocess1 diff_status l_commit r_commit src_lang_path
    l10n_lang_path g
  = process_diff_status subprocess2 diff_status l_commit r_commit
      src_lang_path l10n_lang_path g.
Proof.
  intros HM Hsame.
  destruct diff_status as [|status [|filepath rest]];
    [reflexivity | reflexivity |].
  rewrite !process_diff_status_eq. unfold counterpart_status.
  rewrite Hsame.
  match goal with |- context [(?c =? 0)%Z] => destruct (c =? 0)%Z end;
    [|reflexivity].
  destruct (str_eqb status (u "D")); [reflexivity|].
  destruct (startswith status (u "R")); [reflexivity|].
  destruct (str_eqb status (u "M")) eqn:E; [|reflexivity].
  apply str_eqb_eq in E. subst status. now contradiction HM.
Qed.

(* ================================================================== *)
(** * Witnesses of the further statements *)

Lemma listing_round_trip_witness :
  isspace 9%N = true
  /\ islinebreak 9%N = false
  /\ map split
       (splitlines
          (join nl
             (map (join [9%N])
                [[u "M"; u "content/en/docs/a.md"];
                 [u "R100"; u "content/en/docs/old.md";
                  u "content/en/docs/new.md"]])))
     = [[u "M"; u "content/en/docs/a.md"];
        [u "R100"; u "content/en/docs/old.md"; u "content/en/docs/new.md"]].
Proof.
  split; [reflexivity|]. split; [reflexivity|].
  apply (@listing_round_trip 9%N); [reflexivity | reflexivity |].
  repeat constructor; discriminate.
Defined.

Lemma replace_absent_witness :
  contains (u "static/images/a.png") en = false
  /\ replace (u "static/images/a.png") en ko = u "static/images/a.png".
Proof.
  split; [reflexivity|]. apply replace_absent. reflexivity.
Defined.

Lemma replace_leading_occurrence_witness :
  contains (u "/docs/a.md") en = false
  /\ replace (en ++ u "/docs/a.md") en ko = ko ++ u "/docs/a.md".
Proof.
  split; [reflexivity|]. apply replace_leading_occurrence. reflexivity.
Defined.

Lemma decode_ascii_witness :
  Forall (fun x => (Byte.to_N x < 128)%N) (b "M")
  /\ Py.decode (b "M") = Some (map Byte.to_N (b "M")).
Proof.
  assert (H : Forall (fun x => (Byte.to_N x < 128)%N) (b "M"))
    by (repeat constructor).
  split; [exact H|]. apply decode_ascii. exact H.
Defined.

Lemma raising_line_appends_nothing_witness :
  process_diff_status milestone_repo [u "R100"; u "content/en/docs/old.md"]
    older newer en ko milestone_lists
  = Raises IndexError milestone_lists
  /\ milestone_lists = milestone_lists.
Proof.
  assert (H : process_diff_status milestone_repo
                [u "R100"; u "content/en/docs/old.md"] older newer en ko
                milestone_lists
              = Raises IndexError milestone_lists)
    by (vm_compute; reflexivity).
  split; [exact H|].
  exact (proj1 (@raising_line_appends_nothing _ _ _ _ _ _ _ _ _ H)).
Defined.

Lemma pass_stops_at_first_error_witness :
  process_lines blank_line_repo older newer en ko
    [u "D" ++ [9%N] ++ u "content/en/docs/gone.md"] initial_globals
  = Returns tt (Globals [u "content/en/docs/gone.md"] [] [])
  /\ git_diff_name_status blank_line_repo older newer en ko initial_globals
     = Raises IndexError (Globals [u "content/en/docs/gone.md"] [] []).
Proof.
  assert (H : process_lines blank_line_repo older newer en ko
                [u "D" ++ [9%N] ++ u "content/en/docs/gone.md"]
                initial_globals
              = Returns tt (Globals [u "content/en/docs/gone.md"] [] []))
    by (vm_compute; reflexivity).
  split; [exact H|].
  apply (@pass_stops_at_first_error blank_line_repo older newer en ko
           (u "D" ++ [9%N] ++ u "content/en/docs/gone.md" ++ nl ++ nl
            ++ u "D" ++ [9%N] ++ u "content/en/docs/gone2.md")
           [u "D" ++ [9%N] ++ u "content/en/docs/gone.md"]
           [u "D" ++ [9%N] ++ u "content/en/docs/gone2.md"]
           []
           initial_globals
           (Globals [u "content/en/docs/gone.md"] [] [])
           (Globals [u "content/en/docs/gone.md"] [] [])
           IndexError);
    reflexivity.
Defined.

Lemma pass_exceptions_witness :
  git_diff_name_status blank_line_repo older newer en ko initial_globals
  = Raises IndexError (Globals [u "content/en/docs/gone.md"] [] [])
  /\ (IndexError = IndexError
      \/ IndexError = UnicodeDecodeError
      \/ exists c cmd,
           c <> 0%Z
           /\ IndexError = CalledProcessError c cmd
           /\ (cmd = name_status_cmd older newer en
               \/ exists filepath,
                    cmd = shortstat_cmd older newer filepath
                    \/ cmd = diff_cmd older newer filepath)).
Proof.
  split; [exact blank_line_raises|].
  exact (@pass_exceptions _ _ _ _ _ _ _ _ blank_line_raises).
Defined.

Lemma run_is_pass_then_report_witness :
  git_diff_name_status blank_line_repo older newer (u "content/" ++ u "en")
    (u "content/" ++ u "ko") initial_globals
  = Raises IndexError (Globals [u "content/en/docs/gone.md"] [] [])
  /\ main blank_line_repo (u "ko") (u "en") older newer initial_globals
     = Raises IndexError (Globals [u "content/en/docs/gone.md"] [] []).
Proof.
  split; [exact blank_line_raises|].
  apply (proj1 (run_is_pass_then_report blank_line_repo (u "ko") (u "en")
                  older newer initial_globals)).
  exact blank_line_raises.
Defined.

Lemma run_fails_with_the_listing_witness :
  returncode (broken_repo (name_status_cmd older newer (u "content/" ++ u "en")))
  <> 0%Z
  /\ main broken_repo (u "ko") (u "en") older newer initial_globals
     = Raises
         (CalledProcessError 128
            (name_status_cmd older newer (u "content/" ++ u "en")))
         initial_globals.
Proof.
  split; [vm_compute; discriminate|].
  apply (run_fails_with_the_listing broken_repo (u "ko") (u "en") older newer
           initial_globals).
  vm_compute; discriminate.
Defined.

Lemma every_entry_is_shown_witness :
  In (u "content/en/docs/gone.md") (files_to_be_deleted milestone_lists)
  /\ exists out,
       render_issue older newer en ko milestone_lists = Ok out
       /\ contains out (u "1. [ ] " ++ u "content/en/docs/gone.md" ++ nl)
          = true.
Proof.
  split; [now left|].
  destruct (every_entry_is_shown older newer en ko milestone_lists)
    as (out & Hout & Hdel & _).
  exists out. split; [exact Hout|]. apply Hdel. now left.
Defined.

Lemma report_ignores_diff_witness :
  map (fun m => (filepath m, shortstat m))
      [Modified (u "content/en/docs/a.md") (u "1 file changed") (u "+x")]
  = map (fun m => (filepath m, shortstat m))
        [Modified (u "content/en/docs/a.md") (u "1 file changed") (u "-y")]
  /\ render_issue older newer en ko
       (Globals [] []
          [Modified (u "content/en/docs/a.md") (u "1 file changed") (u "+x")])
     = render_issue older newer en ko
         (Globals [] []
            [Modified (u "content/en/docs/a.md") (u "1 file changed")
               (u "-y")]).
Proof.
  split; [reflexivity|].
  apply report_ignores_diff; reflexivity.
Defined.

Lemma report_without_modified_files_witness :
  files_to_be_modified (Globals [u "content/en/docs/gone.md"] [] []) = []
  /\ render_issue older newer en ko
       (Globals [u "content/en/docs/gone.md"] [] [])
     = render_issue (u "dev-1.14-ko.1") newer (u "content/fr")
         (u "content/ja") (Globals [u "content/en/docs/gone.md"] [] []).
Proof.
  split; [reflexivity|].
  apply report_without_modified_files. reflexivity.
Defined.

Lemma only_modified_lines_run_git_diff_witness :
  nth_error [u "D"; u "content/en/docs/gone.md"] 0 <> Some (u "M")
  /\ process_diff_status milestone_repo [u "D"; u "content/en/docs/gone.md"]
       older newer en ko initial_globals
     = process_diff_status
         (fun cmd => Completed (returncode (milestone_repo cmd)) [])
         [u "D"; u "content/en/docs/gone.md"] older newer en ko
         initial_globals.
Proof.
  split; [discriminate|].
  apply only_modified_lines_run_git_diff; [discriminate | reflexivity].
Defined.

Lemma entries_keep_listing_order_witness :
  process_lines milestone_repo older newer en ko
    [u "D" ++ [9%N] ++ u "content/en/docs/gone.md"] initial_globals
  = Returns tt (Globals [u "content/en/docs/gone.md"] [] [])
  /\ process_lines milestone_repo older newer en ko
       ([u "D" ++ [9%N] ++ u "content/en/docs/gone.md"]
        ++ [u "R100" ++ [9%N] ++ u "content/en/docs/old.md" ++ [9%N]
            ++ u "content/en/docs/new.md";
            u "D" ++ [9%N] ++ u "content/en/docs/gone.md"])
       initial_globals
     = Returns tt
         (Globals
            [u "content/en/docs/gone.md"; u "content/en/docs/gone.md"]
            [Renamed (u "R100") (u "content/en/docs/old.md")
               (u "content/en/docs/new.md")]
            []).
Proof.
  assert (H : process_lines milestone_repo older newer en ko
                [u "D" ++ [9%N] ++ u "content/en/docs/gone.md"]
                initial_globals
              = Returns tt (Globals [u "content/en/docs/gone.md"] [] []))
    by (vm_compute; reflexivity).
  split; [exact H|].
  rewrite (proj1 (@entries_keep_listing_order milestone_repo older newer en
                    ko _ _ H)).
  vm_compute. reflexivity.
Defined.
